(** * Instrumented binary search (src/lib/algorithms/binary-search.py)

    A shallow embedding of [BinarySearchAlgorithm] and of the two
    convenience wrappers, followed by the properties the specification
    states about them.

    Conventions of the embedding:
    - Python values that can occur as list elements or as the target are
      the inductive [pyval]; a finite float is represented by its exact
      rational value, so that comparisons between ints and floats are the
      exact ones Python performs;
    - an f-string is kept as the list of its pieces ([fstring]); [render]
      gives the final text whenever no finite float is interpolated;
      building one fails on an [int] too long to be converted to text
      ([fmt]), which can happen in the validator only;
    - a dict is an association list in insertion order;
    - the object state ([self.steps], [self.comparisons]) is threaded by a
      state-and-exception monad [M]. *)

From Stdlib Require Import ZArith QArith List String Ascii Bool Lia.
From Stdlib Require Import DecimalString.
Import ListNotations.

Local Open Scope string_scope.
Local Open Scope list_scope.
Local Open Scope Z_scope.

(** ** Python values *)

Inductive pyfloat : Type :=
| FFinite (q : Q)
| FNaN
| FInf (negative : bool).

Inductive pyval : Type :=
| VInt (z : Z)
| VBool (b : bool)
| VFloat (f : pyfloat)
| VStr (s : string)
| VNone.

(** One piece of an f-string: literal text, or an interpolated [{value}]. *)
Inductive piece : Type :=
| Lit (s : string)
| Fmt (v : pyval).

Definition fstring : Type := list piece.

Inductive pyexc : Type :=
| ValueError (msg : fstring)
| TypeError
| OverflowError
| IndexError.

(** JSON-shaped objects: what a step dict and [to_dict] are made of. *)
#[warnings="-register-all"]
Inductive pyobj : Type :=
| OVal (v : pyval)
| OText (t : fstring)
| OList (l : list pyobj)
| ODict (d : list (string * pyobj)).

Definition dict : Type := list (string * pyobj).

Definition oint (z : Z) : pyobj := OVal (VInt z).
Definition obool (b : bool) : pyobj := OVal (VBool b).
Definition ostr (s : string) : pyobj := OVal (VStr s).
Definition oints (l : list Z) : pyobj := OList (map oint l).

Fixpoint dict_get (k : string) (d : dict) : option pyobj :=
  match d with
  | [] => None
  | (k', v) :: d' => if String.eqb k k' then Some v else dict_get k d'
  end.

(** [d[k] = v]: replaces the value of an existing key in place, otherwise
    appends the key at the end. *)
Fixpoint dict_set (k : string) (v : pyobj) (d : dict) : dict :=
  match d with
  | [] => [(k, v)]
  | (k', v') :: d' =>
      if String.eqb k k' then (k', v) :: d' else (k', v') :: dict_set k v d'
  end.

Definition keys (d : dict) : list string := map fst d.

(** ** Text of an f-string *)

Definition str_of_Z (z : Z) : string := NilZero.string_of_int (Z.to_int z).

(** Converting an [int] to decimal text raises ValueError when the text
    has more digits than [sys.get_int_max_str_digits()], 4300 unless
    reconfigured; the sign is not counted. The least magnitude refused is
    10^4300. *)
Definition INT_MAX_STR_DIGITS : nat := 4300.

Definition str_convertible (z : Z) : bool :=
  (String.length (str_of_Z (Z.abs z)) <=? INT_MAX_STR_DIGITS)%nat.



(** ** Numbers and comparisons *)

(** [isinstance(v, (int, float))], with the numeric value ([bool] is a
    subclass of [int]). *)
Definition as_number (v : pyval) : option pyfloat :=
  match v with
  | VInt z => Some (FFinite (inject_Z z))
  | VBool b => Some (FFinite (inject_Z (Z.b2z b)))
  | VFloat f => Some f
  | VStr _ | VNone => None
  end.

Definition isinstance_number (v : pyval) : bool :=
  match as_number v with Some _ => true | None => false end.

Definition float_ltb (x y : pyfloat) : bool :=
  match x, y with
  | FNaN, _ | _, FNaN => false
  | FFinite p, FFinite q => match (p ?= q)%Q with Lt => true | _ => false end
  | FFinite _, FInf negative => negb negative
  | FInf negative, FFinite _ => negative
  | FInf n1, FInf n2 => n1 && negb n2
  end.

Definition float_eqb (x y : pyfloat) : bool :=
  match x, y with
  | FNaN, _ | _, FNaN => false
  | FFinite p, FFinite q => Qeq_bool p q
  | FInf n1, FInf n2 => Bool.eqb n1 n2
  | _, _ => false
  end.

(** Results of Python code: a value, a raised exception, or (for the
    bounded model of the [while] loop only) the bound being reached. *)
Inductive outcome (A : Type) : Type :=
| Return (a : A)
| Raise (e : pyexc)
| OutOfFuel.

Arguments Return {A} a.
Arguments Raise {A} e.
Arguments OutOfFuel {A}.

(** [a < b]: numbers compare by value, strings lexicographically; any
    other pairing is a TypeError. *)
Definition py_lt (a b : pyval) : outcome bool :=
  match as_number a, as_number b with
  | Some x, Some y => Return (float_ltb x y)
  | _, _ =>
      match a, b with
      | VStr s, VStr t => Return (String.ltb s t)
      | _, _ => Raise TypeError
      end
  end.

(** [a == b]: never raises. *)
Definition py_eq (a b : pyval) : bool :=
  match as_number a, as_number b with
  | Some x, Some y => float_eqb x y
  | _, _ =>
      match a, b with
      | VStr s, VStr t => String.eqb s t
      | VNone, VNone => true
      | _, _ => false
      end
  end.

(** ** Exceptions only: the monad of the validator *)

Definition obind {A B} (m : outcome A) (f : A -> outcome B) : outcome B :=
  match m with
  | Return a => f a
  | Raise e => Raise e
  | OutOfFuel => OutOfFuel
  end.

Declare Scope outcome_scope.
Delimit Scope outcome_scope with outcome.
Notation "x <- m ;; k" := (obind m (fun x => k))
  (at level 61, m at next level, right associativity) : outcome_scope.
Notation "m ;; k" := (obind m (fun _ => k))
  (at level 61, right associativity) : outcome_scope.

(** The exception of an [int] too long to be converted to text. *)
Definition digits_error : pyexc :=
  ValueError
    [Lit "Exceeds the limit (4300 digits) for integer string conversion; use sys.set_int_max_str_digits() to increase the limit"].

(** [str(v)] returns: [v] is not an [int] too long to be converted. *)
Definition printable (v : pyval) : bool :=
  match v with
  | VInt z => str_convertible z
  | _ => true
  end.

(** [{v}] while an f-string is built: the interpolated piece, unless the
    conversion of [v] raises. *)
Definition fmt (v : pyval) : outcome piece :=
  if printable v then Return (Fmt v) else Raise digits_error.

Definition len (data : list pyval) : Z := Z.of_nat (List.length data).

(** [data[i]] with Python's negative indices. *)
Definition getitem (data : list pyval) (i : Z) : outcome pyval :=
  let k := if i <? 0 then i + len data else i in
  if (0 <=? k) && (k <? len data) then
    match nth_error data (Z.to_nat k) with
    | Some v => Return v
    | None => Raise IndexError
    end
  else Raise IndexError.

(** [range(start, stop)] *)
Definition range (start stop : Z) : list Z :=
  map (fun k => start + Z.of_nat k) (seq 0 (Z.to_nat (stop - start))).

(** [for x in xs: body(x)] *)
Fixpoint for_in {A} (xs : list A) (body : A -> outcome unit) : outcome unit :=
  match xs with
  | [] => Return tt
  | x :: xs' => (body x ;; for_in xs' body)%outcome
  end.

Definition enumerate (data : list pyval) : list (Z * pyval) :=
  combine (range 0 (len data)) data.

(** The least magnitude of an int that [math.isfinite] cannot convert to a
    double (it rounds to 2^1024): the conversion raises OverflowError. *)
Definition DBL_INT_LIMIT : Z := 2 ^ 1024 - 2 ^ 970.

(** [self._is_finite(value)]: [math.isfinite(value)]; the [except] clause
    covers ImportError and AttributeError only, which cannot occur. *)
Definition _is_finite (value : pyval) : outcome bool :=
  match value with
  | VInt z => if Z.abs z <? DBL_INT_LIMIT then Return true else Raise OverflowError
  | VBool _ => Return true
  | VFloat (FFinite _) => Return true
  | VFloat _ => Return false
  | VStr _ | VNone => Raise TypeError
  end.

(** [not isinstance(v, (int, float)) or not self._is_finite(v)] *)
Definition not_finite_number (v : pyval) : outcome bool :=
  if negb (isinstance_number v) then Return true
  else (b <- _is_finite v ;; Return (negb b))%outcome.

(** [_validate_input]. The argument [data] is a list by its type, so the
    first test, [isinstance(data, list)], holds. The two messages that
    interpolate elements of the list are built piece by piece, from left
    to right, and building them fails on an [int] too long to convert;
    the indices they interpolate are positions of the list. *)
Definition _validate_input (data : list pyval) (target : pyval) : outcome unit :=
  (bad_target <- not_finite_number target ;;
   (if bad_target then Raise (ValueError [Lit "Target must be a finite number"])
    else Return tt) ;;
   for_in (range 1 (len data)) (fun i =>
     x <- getitem data i ;;
     y <- getitem data (i - 1) ;;
     unsorted <- py_lt x y ;;
     if unsorted then
       px <- fmt x ;;
       py <- fmt y ;;
       Raise (ValueError
         [Lit "Array must be sorted for binary search. Found "; px;
          Lit " < "; py; Lit " at indices "; Fmt (VInt i);
          Lit " and "; Fmt (VInt (i - 1))])
     else Return tt) ;;
   for_in (enumerate data) (fun '(i, value) =>
     bad <- not_finite_number value ;;
     if bad then
       pv <- fmt value ;;
       Raise (ValueError
         [Lit "Array element at index "; Fmt (VInt i);
          Lit " must be a finite number, got: "; pv])
     else Return tt))%outcome.

(** ** The object state and its monad *)

(** [self.steps] and [self.comparisons] of a [BinarySearchAlgorithm]. *)
Record BinarySearchAlgorithm : Type := mkSelf {
  self_steps : list dict;
  self_comparisons : Z
}.

Record BinarySearchResult : Type := mkResult {
  found : bool;
  index : Z;
  steps : list dict;
  comparisons : Z
}.

(** [BinarySearchResult.to_dict] *)
Definition to_dict (r : BinarySearchResult) : dict :=
  [("found", obool (found r));
   ("index", oint (index r));
   ("steps", OList (map ODict (steps r)));
   ("comparisons", oint (comparisons r))].

(** [BinarySearchAlgorithm.__init__] *)
Definition __init__ : BinarySearchAlgorithm := mkSelf [] 0.

(** A method body: it reads and updates [self] and may raise; the state
    reached when an exception is raised is kept. *)
Definition M (A : Type) : Type :=
  BinarySearchAlgorithm -> outcome A * BinarySearchAlgorithm.

Definition ret {A} (a : A) : M A := fun self => (Return a, self).

Definition bind {A B} (m : M A) (f : A -> M B) : M B :=
  fun self =>
    match m self with
    | (Return a, self') => f a self'
    | (Raise e, self') => (Raise e, self')
    | (OutOfFuel, self') => (OutOfFuel, self')
    end.

Definition lift {A} (o : outcome A) : M A := fun self => (o, self).

Declare Scope method_scope.
Delimit Scope method_scope with method.
Notation "x <- m ;; k" := (bind m (fun x => k))
  (at level 61, m at next level, right associativity) : method_scope.
Notation "m ;; k" := (bind m (fun _ => k))
  (at level 61, right associativity) : method_scope.

Definition get_steps : M (list dict) := fun self => (Return (self_steps self), self).
Definition get_comparisons : M Z := fun self => (Return (self_comparisons self), self).
Definition set_steps (l : list dict) : M unit :=
  fun self => (Return tt, mkSelf l (self_comparisons self)).
Definition set_comparisons (n : Z) : M unit :=
  fun self => (Return tt, mkSelf (self_steps self) n).

(** [if track_steps: ...] *)
Definition when (b : bool) (m : M unit) : M unit := if b then m else ret tt.

(** [_add_step]: stamps the step with its 1-based position and appends it. *)
Definition _add_step (step : dict) : M unit :=
  (l <- get_steps ;;
   set_steps (l ++ [dict_set "operationCount" (oint (Z.of_nat (List.length l) + 1)) step]))%method.

(** [_generate_range_indices]: [list(range(start, end + 1))] *)
Definition _generate_range_indices (start end_ : Z) : list Z :=
  range start (end_ + 1).

Definition _get_comparison_result (target mid : pyval) : outcome string :=
  if py_eq target mid then Return "equal"
  else (b <- py_lt target mid ;; Return (if b then "less" else "greater"))%outcome.

Definition _get_comparison_symbol (target mid : pyval) : outcome string :=
  if py_eq target mid then Return "=="
  else (b <- py_lt target mid ;; Return (if b then "<" else ">"))%outcome.

(** ** The step dicts, as the source writes them (before stamping)

    Their descriptions interpolate the target, elements of the list and
    positions. The steps are written after validation, when every [int]
    among these has at most 309 digits, so the pieces are interpolated
    directly. *)

Definition init_step (data : list pyval) (target : pyval) : dict :=
  [("type", ostr "init");
   ("indices", OList []);
   ("metadata", ODict
      [("target", OVal target);
       ("arrayLength", oint (len data));
       ("algorithm", ostr "binary-search");
       ("language", ostr "python")]);
   ("description", OText
      [Lit "Initialize binary search for target "; Fmt target;
       Lit " in sorted array of "; Fmt (VInt (len data)); Lit " elements"])].

Definition empty_step : dict :=
  [("type", ostr "eliminate");
   ("indices", OList []);
   ("metadata", ODict [("found", obool false); ("reason", ostr "empty-array")]);
   ("description", ostr "Array is empty - target cannot be found")].

Definition range_step (left right mid : Z) : dict :=
  [("type", ostr "highlight");
   ("indices", oints (_generate_range_indices left right));
   ("metadata", ODict
      [("left", oint left); ("right", oint right); ("mid", oint mid);
       ("searchRange", obool true);
       ("rangeSize", oint (right - left + 1))]);
   ("description", OText
      [Lit "Search range: ["; Fmt (VInt left); Lit ", "; Fmt (VInt right);
       Lit "] ("; Fmt (VInt (right - left + 1)); Lit " elements)"])].

Definition pointers_step (left right mid : Z) (lv mv rv : pyval) : dict :=
  [("type", ostr "highlight");
   ("indices", oints [left; mid; right]);
   ("metadata", ODict
      [("left", oint left); ("right", oint right); ("mid", oint mid);
       ("pointers", ODict
          [("left", oint left); ("mid", oint mid); ("right", oint right)]);
       ("leftValue", OVal lv); ("midValue", OVal mv); ("rightValue", OVal rv)]);
   ("description", OText
      [Lit "Pointers: left="; Fmt (VInt left); Lit "("; Fmt lv;
       Lit "), mid="; Fmt (VInt mid); Lit "("; Fmt mv;
       Lit "), right="; Fmt (VInt right); Lit "("; Fmt rv; Lit ")"])].

Definition compare_step (left right mid : Z) (target mv : pyval)
    (comparison symbol : string) (count : Z) : dict :=
  [("type", ostr "compare");
   ("indices", oints [mid]);
   ("metadata", ODict
      [("left", oint left); ("right", oint right); ("mid", oint mid);
       ("targetValue", OVal target); ("midValue", OVal mv);
       ("comparison", ostr comparison);
       ("comparisonCount", oint count)]);
   ("description", OText
      [Lit "Compare: target("; Fmt target; Lit ") "; Fmt (VStr symbol);
       Lit " mid("; Fmt mv; Lit ")"])].

Definition found_step (left right mid : Z) (target : pyval) (count : Z) : dict :=
  [("type", ostr "found");
   ("indices", oints [mid]);
   ("metadata", ODict
      [("left", oint left); ("right", oint right); ("mid", oint mid);
       ("found", obool true); ("targetValue", OVal target);
       ("foundIndex", oint mid); ("totalComparisons", oint count)]);
   ("description", OText
      [Lit "🎉 Found target "; Fmt target; Lit " at index "; Fmt (VInt mid);
       Lit " after "; Fmt (VInt count); Lit " comparisons!"])].

Definition eliminate_left_step (left right mid : Z) (target mv : pyval) : dict :=
  [("type", ostr "eliminate");
   ("indices", oints (_generate_range_indices left mid));
   ("metadata", ODict
      [("left", oint left); ("right", oint right); ("mid", oint mid);
       ("eliminated", ostr "left");
       ("eliminatedRange", oints [left; mid]);
       ("reason", OText [Fmt mv; Lit " < "; Fmt target]);
       ("remainingRange", oints [mid + 1; right]);
       ("remainingSize", oint (right - mid))]);
   ("description", OText
      [Fmt mv; Lit " < "; Fmt target; Lit ": eliminate left half [";
       Fmt (VInt left); Lit ", "; Fmt (VInt mid); Lit "], search [";
       Fmt (VInt (mid + 1)); Lit ", "; Fmt (VInt right); Lit "]"])].

Definition eliminate_right_step (left right mid : Z) (target mv : pyval) : dict :=
  [("type", ostr "eliminate");
   ("indices", oints (_generate_range_indices mid right));
   ("metadata", ODict
      [("left", oint left); ("right", oint right); ("mid", oint mid);
       ("eliminated", ostr "right");
       ("eliminatedRange", oints [mid; right]);
       ("reason", OText [Fmt mv; Lit " > "; Fmt target]);
       ("remainingRange", oints [left; mid - 1]);
       ("remainingSize", oint (mid - left))]);
   ("description", OText
      [Fmt mv; Lit " > "; Fmt target; Lit ": eliminate right half [";
       Fmt (VInt mid); Lit ", "; Fmt (VInt right); Lit "], search [";
       Fmt (VInt left); Lit ", "; Fmt (VInt (mid - 1)); Lit "]"])].

Definition exhausted_step (left right : Z) (target : pyval) (count : Z) : dict :=
  [("type", ostr "eliminate");
   ("indices", OList []);
   ("metadata", ODict
      [("found", obool false); ("totalComparisons", oint count);
       ("searchExhausted", obool true);
       ("finalLeft", oint left); ("finalRight", oint right)]);
   ("description", OText
      [Lit "❌ Target "; Fmt target; Lit " not found after ";
       Fmt (VInt count); Lit " comparisons (search space exhausted)"])].

(** ** The search core *)

(** The dict [{'found': ..., 'index': ...}] returned by the core. *)
Record core_result : Type := mkCore { core_found : bool; core_index : Z }.

(** How one pass through the body of the [while] loop ends: with [return],
    or with new values of [left] and [right]. *)
Inductive ctl : Type :=
| Break (r : core_result)
| Continue (left right : Z).

(** The body of [while left <= right]. The values [data[left]],
    [data[mid]] and [data[right]] are read once per step dict; the list is
    not modified in between. *)
Definition loop_body (data : list pyval) (target : pyval) (track_steps : bool)
    (left right : Z) : M ctl :=
  (let mid := (left + right) / 2 in
   when track_steps (
     _add_step (range_step left right mid) ;;
     lv <- lift (getitem data left) ;;
     mv <- lift (getitem data mid) ;;
     rv <- lift (getitem data right) ;;
     _add_step (pointers_step left right mid lv mv rv)) ;;
   n <- get_comparisons ;;
   set_comparisons (n + 1) ;;
   when track_steps (
     mv <- lift (getitem data mid) ;;
     comparison <- lift (_get_comparison_result target mv) ;;
     count <- get_comparisons ;;
     symbol <- lift (_get_comparison_symbol target mv) ;;
     _add_step (compare_step left right mid target mv comparison symbol count)) ;;
   mv <- lift (getitem data mid) ;;
   if py_eq mv target then
     when track_steps (
       count <- get_comparisons ;;
       _add_step (found_step left right mid target count)) ;;
     ret (Break (mkCore true mid))
   else
     below <- lift (py_lt mv target) ;;
     if (below : bool) then
       when track_steps (_add_step (eliminate_left_step left right mid target mv)) ;;
       ret (Continue (mid + 1) right)
     else
       when track_steps (_add_step (eliminate_right_step left right mid target mv)) ;;
       ret (Continue left (mid - 1)))%method.

(** How the [while] loop is left. *)
Inductive loop_exit : Type :=
| Returned (r : core_result)
| Exhausted (left right : Z).

(** [while left <= right: body], at most [fuel] passes. *)
Fixpoint while_loop (fuel : nat) (data : list pyval) (target : pyval)
    (track_steps : bool) (left right : Z) : M loop_exit :=
  if left <=? right then
    match fuel with
    | O => lift OutOfFuel
    | S fuel' =>
        (c <- loop_body data target track_steps left right ;;
         match c with
         | Break r => ret (Returned r)
         | Continue left' right' =>
             while_loop fuel' data target track_steps left' right'
         end)%method
    end
  else ret (Exhausted left right).

(** [_binary_search_core]. The range halves at each pass, so [len(data)]
    passes are never used up ([execute_total] below). *)
Definition _binary_search_core (data : list pyval) (target : pyval)
    (track_steps : bool) : M core_result :=
  (e <- while_loop (List.length data) data target track_steps 0 (len data - 1) ;;
   match e with
   | Returned r => ret r
   | Exhausted final_left final_right =>
       when track_steps (
         count <- get_comparisons ;;
         _add_step (exhausted_step final_left final_right target count)) ;;
       ret (mkCore false (-1))
   end)%method.

(** [BinarySearchAlgorithm.execute] *)
Definition execute (data : list pyval) (target : pyval) (track_steps : bool)
    : M BinarySearchResult :=
  (set_steps [] ;;
   set_comparisons 0 ;;
   lift (_validate_input data target) ;;
   when track_steps (_add_step (init_step data target)) ;;
   if len data =? 0 then
     when track_steps (_add_step empty_step) ;;
     l <- get_steps ;;
     n <- get_comparisons ;;
     ret (mkResult false (-1) l n)
   else
     result <- _binary_search_core data target track_steps ;;
     l <- get_steps ;;
     n <- get_comparisons ;;
     ret (mkResult (core_found result) (core_index result) l n))%method.

(** [binary_search]: a fresh object, no step tracking, the index only. *)
Definition binary_search (data : list pyval) (target : pyval) : outcome Z :=
  (result <- fst (execute data target false __init__) ;;
   Return (index result))%outcome.

(** [binary_search_with_steps] *)
Definition binary_search_with_steps (data : list pyval) (target : pyval)
    : outcome BinarySearchResult :=
  fst (execute data target true __init__).


(** * Vocabulary of the properties

    The notions in which the properties below are stated, and the
    closed forms of the loop and of the trace used to prove them. *)

(** The values accepted by the per-value test of the validator: an [int]
    that [math.isfinite] can convert, a [bool], or a finite [float]. *)
Definition finite_number (v : pyval) : bool :=
  match v with
  | VInt z => Z.abs z <? DBL_INT_LIMIT
  | VBool _ => true
  | VFloat (FFinite _) => true
  | VFloat _ | VStr _ | VNone => false
  end.

(** The numeric value of a finite number. *)
Definition qval (v : pyval) : Q :=
  match as_number v with
  | Some (FFinite q) => q
  | _ => 0%Q
  end.

Definition all_finite (data : list pyval) : Prop :=
  Forall (fun v => finite_number v = true) data.

(** Adjacent elements are in order. *)
Definition non_decreasing (data : list pyval) : Prop :=
  forall i x y,
    nth_error data i = Some x -> nth_error data (S i) = Some y ->
    (qval x <= qval y)%Q.

(** [data[i]] for an index known to be in range. *)
Definition item (data : list pyval) (i : Z) : pyval :=
  nth (Z.to_nat i) data VNone.

(** The three checks of [_validate_input], in the order of the source. *)
Definition target_check (target : pyval) : outcome unit :=
  (bad_target <- not_finite_number target ;;
   if bad_target then Raise (ValueError [Lit "Target must be a finite number"])
   else Return tt)%outcome.

Definition sorted_check (data : list pyval) (i : Z) : outcome unit :=
  (x <- getitem data i ;;
   y <- getitem data (i - 1) ;;
   unsorted <- py_lt x y ;;
   if unsorted then
     px <- fmt x ;;
     py <- fmt y ;;
     Raise (ValueError
       [Lit "Array must be sorted for binary search. Found "; px;
        Lit " < "; py; Lit " at indices "; Fmt (VInt i);
        Lit " and "; Fmt (VInt (i - 1))])
   else Return tt)%outcome.

Definition element_check (iv : Z * pyval) : outcome unit :=
  (let '(i, value) := iv in
   bad <- not_finite_number value ;;
   if bad then
     pv <- fmt value ;;
     Raise (ValueError
       [Lit "Array element at index "; Fmt (VInt i);
        Lit " must be a finite number, got: "; pv])
   else Return tt)%outcome.

(** What [_add_step] does to [self.steps]. *)
Definition push (l : list dict) (step : dict) : list dict :=
  l ++ [dict_set "operationCount" (oint (Z.of_nat (List.length l) + 1)) step].

Definition pushes (l : list dict) (new : list dict) : list dict :=
  fold_left push new l.

Definition midpoint (left right : Z) : Z := (left + right) / 2.

(** [data[mid]] against the target. *)
Definition cmp_at (data : list pyval) (target : pyval) (mid : Z) : comparison :=
  (qval (item data mid) ?= qval target)%Q.

Definition next_ctl (c : comparison) (left right : Z) : ctl :=
  let mid := midpoint left right in
  match c with
  | Eq => Break (mkCore true mid)
  | Lt => Continue (mid + 1) right
  | Gt => Continue left (mid - 1)
  end.

(** The steps recorded by one pass, [count] being the comparison counter
    after its increment. *)
Definition body_steps (data : list pyval) (target : pyval)
    (left right count : Z) : list dict :=
  let mid := midpoint left right in
  let mv := item data mid in
  [range_step left right mid;
   pointers_step left right mid (item data left) mv (item data right);
   match cmp_at data target mid with
   | Eq => compare_step left right mid target mv "equal" "==" count
   | Lt => compare_step left right mid target mv "greater" ">" count
   | Gt => compare_step left right mid target mv "less" "<" count
   end;
   match cmp_at data target mid with
   | Eq => found_step left right mid target count
   | Lt => eliminate_left_step left right mid target mv
   | Gt => eliminate_right_step left right mid target mv
   end].

(** [run data target left right n e k evs]: entered with [left], [right]
    and the comparison counter at [n], the loop is left by [e] after [k]
    passes, having recorded the steps [evs] (when tracking). *)
Inductive run (data : list pyval) (target : pyval)
  : Z -> Z -> Z -> loop_exit -> Z -> list dict -> Prop :=
| run_exhausted left right n :
    right < left ->
    run data target left right n (Exhausted left right) 0 []
| run_found left right n :
    left <= right ->
    cmp_at data target (midpoint left right) = Eq ->
    run data target left right n
      (Returned (mkCore true (midpoint left right))) 1
      (body_steps data target left right (n + 1))
| run_left left right n e k evs :
    left <= right ->
    cmp_at data target (midpoint left right) = Lt ->
    run data target (midpoint left right + 1) right (n + 1) e k evs ->
    run data target left right n e (k + 1)
      (body_steps data target left right (n + 1) ++ evs)
| run_right left right n e k evs :
    left <= right ->
    cmp_at data target (midpoint left right) = Gt ->
    run data target left (midpoint left right - 1) (n + 1) e k evs ->
    run data target left right n e (k + 1)
      (body_steps data target left right (n + 1) ++ evs).

Definition exit_found (e : loop_exit) : bool :=
  match e with Returned r => core_found r | Exhausted _ _ => false end.

Definition exit_index (e : loop_exit) : Z :=
  match e with Returned r => core_index r | Exhausted _ _ => -1 end.

(** All the steps of a tracked call, before stamping. *)
Definition trace_steps (data : list pyval) (target : pyval)
    (e : loop_exit) (k : Z) (evs : list dict) : list dict :=
  init_step data target ::
  (if len data =? 0 then [empty_step]
   else evs ++
        match e with
        | Returned _ => []
        | Exhausted final_left final_right =>
            [exhausted_step final_left final_right target k]
        end).

Definition tracked (track : bool) (l : list dict) : list dict :=
  if track then pushes [] l else [].

(** What a caller sees of a call besides the trace. *)
Definition visible (o : outcome BinarySearchResult) : outcome (bool * Z * Z) :=
  (r <- o ;; Return (found r, index r, comparisons r))%outcome.

Definition stamp (i : nat) (step : dict) : dict :=
  dict_set "operationCount" (oint (Z.of_nat i + 1)) step.

(** The steps [new], stamped as they are when appended after [k] others. *)
Fixpoint stamp_from (k : nat) (new : list dict) : list dict :=
  match new with
  | [] => []
  | step :: rest => stamp k step :: stamp_from (S k) rest
  end.

(** The [type] of a step, and an entry of its [metadata]. *)
Definition step_type (s : dict) : string :=
  match dict_get "type" s with
  | Some (OVal (VStr t)) => t
  | _ => ""
  end.

Definition step_meta (k : string) (s : dict) : option pyobj :=
  match dict_get "metadata" s with
  | Some (ODict m) => dict_get k m
  | _ => None
  end.

Definition is_found_step (s : dict) : Prop := step_type s = "found".

Definition is_exhausted_step (s : dict) : Prop :=
  step_type s = "eliminate" /\
  step_meta "searchExhausted" s = Some (obool true).

Definition is_empty_array_step (s : dict) : Prop :=
  step_type s = "eliminate" /\
  step_meta "reason" s = Some (ostr "empty-array").

(** The keys every step dict is written with, before [_add_step]. *)
Definition written_keys : list string :=
  ["type"; "indices"; "metadata"; "description"].



(** A message cites a value when it interpolates it. *)
Definition mentions (msg : fstring) (v : pyval) : Prop := In (Fmt v) msg.

(** The values of [left], [right] and [self] with which the loop test is
    reached: at entry, and after each pass that did not return. *)
Inductive reachable (data : list pyval) (target : pyval) (track_steps : bool)
  : Z -> Z -> BinarySearchAlgorithm -> Prop :=
| reach_entry self :
    reachable data target track_steps 0 (len data - 1) self
| reach_pass left right self left' right' self' :
    reachable data target track_steps left right self ->
    left <= right ->
    loop_body data target track_steps left right self
      = (Return (Continue left' right'), self') ->
    reachable data target track_steps left' right' self'.

(** The [comparisonCount] recorded by the [compare] steps of a trace. *)
Definition compare_counts (l : list dict) : list (option pyobj) :=
  map (step_meta "comparisonCount")
      (filter (fun s => String.eqb (step_type s) "compare") l).

(** The [indices] of a step are a list of positions of a list of length
    [n]. *)
Definition indices_within (n : Z) (s : dict) : Prop :=
  exists l, dict_get "indices" s = Some (oints l) /\
            Forall (fun i => 0 <= i < n) l.

(** A value of the declared element type that [math.isfinite] can take:
    an [int] within the range of a double, a [bool] or any [float]. *)
Definition convertible_number (v : pyval) : bool :=
  match v with
  | VInt z => Z.abs z <? DBL_INT_LIMIT
  | VBool _ | VFloat _ => true
  | VStr _ | VNone => false
  end.



(** * Lemmas *)

(** ** Finite numbers and their order *)

Lemma finite_number_iff v :
  finite_number v = true <-> not_finite_number v = Return false.
Proof.
  unfold not_finite_number, isinstance_number.
  destruct v as [z|b|[q| |n]|s|]; simpl; try (split; congruence).
  destruct (Z.abs z <? DBL_INT_LIMIT); simpl; split; congruence.
Qed.

Lemma as_number_finite v :
  finite_number v = true -> as_number v = Some (FFinite (qval v)).
Proof.
  destruct v as [z|b|[q| |n]|s|]; simpl; intros H; try discriminate; reflexivity.
Qed.

Lemma py_eq_finite a b :
  finite_number a = true -> finite_number b = true ->
  py_eq a b = match (qval a ?= qval b)%Q with Eq => true | _ => false end.
Proof.
  intros Ha Hb. unfold py_eq.
  rewrite (as_number_finite a Ha), (as_number_finite b Hb). simpl.
  destruct (Qeq_bool (qval a) (qval b)) eqn:E.
  - apply Qeq_bool_iff in E. apply Qeq_alt in E. now rewrite E.
  - destruct (qval a ?= qval b)%Q eqn:C; try reflexivity.
    apply Qeq_alt, Qeq_bool_iff in C. congruence.
Qed.

Lemma py_lt_finite a b :
  finite_number a = true -> finite_number b = true ->
  py_lt a b = Return match (qval a ?= qval b)%Q with Lt => true | _ => false end.
Proof.
  intros Ha Hb. unfold py_lt.
  now rewrite (as_number_finite a Ha), (as_number_finite b Hb).
Qed.

Lemma py_eq_true_iff a b :
  finite_number a = true -> finite_number b = true ->
  py_eq a b = true <-> (qval a == qval b)%Q.
Proof.
  intros Ha Hb. rewrite (py_eq_finite a b Ha Hb), Qeq_alt.
  destruct (qval a ?= qval b)%Q; split; congruence.
Qed.

(** ** Indexing *)

Lemma len_nonneg data : 0 <= len data.
Proof. unfold len. lia. Qed.

Lemma getitem_in_range data i :
  0 <= i < len data -> getitem data i = Return (item data i).
Proof.
  intros H. unfold getitem, item, len in *.
  replace (i <? 0) with false by (symmetry; apply Z.ltb_ge; lia).
  replace (0 <=? i) with true by (symmetry; apply Z.leb_le; lia).
  replace (i <? Z.of_nat (List.length data)) with true
    by (symmetry; apply Z.ltb_lt; lia).
  simpl.
  destruct (nth_error data (Z.to_nat i)) eqn:E.
  - now rewrite (nth_error_nth _ _ VNone E).
  - apply nth_error_None in E. lia.
Qed.

Lemma item_nth_error data i :
  0 <= i < len data -> nth_error data (Z.to_nat i) = Some (item data i).
Proof.
  intros H. unfold item, len in *. apply nth_error_nth'. lia.
Qed.

Lemma item_In data i : 0 <= i < len data -> In (item data i) data.
Proof.
  intros H. eapply nth_error_In. now apply item_nth_error.
Qed.

Lemma item_finite data i :
  all_finite data -> 0 <= i < len data -> finite_number (item data i) = true.
Proof.
  intros Hall H. unfold all_finite in Hall. rewrite Forall_forall in Hall.
  now apply Hall, item_In.
Qed.

Lemma In_item data v :
  In v data -> exists i, 0 <= i < len data /\ item data i = v.
Proof.
  intros H. apply In_nth_error in H as [n Hn].
  exists (Z.of_nat n). unfold item, len. rewrite Nat2Z.id. split.
  - assert (n < List.length data)%nat by (apply nth_error_Some; congruence). lia.
  - now apply nth_error_nth.
Qed.

(** A list in adjacent order is in order at any two positions. *)
Lemma non_decreasing_le data i j :
  non_decreasing data -> 0 <= i -> i <= j -> j < len data ->
  (qval (item data i) <= qval (item data j))%Q.
Proof.
  intros Hs Hi Hij Hj.
  replace j with (i + Z.of_nat (Z.to_nat (j - i))) in * by lia.
  induction (Z.to_nat (j - i)) as [|k IH].
  - rewrite Z.add_0_r. apply Qle_refl.
  - eapply Qle_trans; [apply IH; lia|].
    apply (Hs (Z.to_nat (i + Z.of_nat k))).
    + apply item_nth_error. lia.
    + replace (S (Z.to_nat (i + Z.of_nat k)))
        with (Z.to_nat (i + Z.of_nat (S k))) by lia.
      apply item_nth_error. lia.
Qed.

(** ** The validator *)

Lemma for_in_ok {A} (xs : list A) (body : A -> outcome unit) :
  for_in xs body = Return tt <-> forall x, In x xs -> body x = Return tt.
Proof.
  induction xs as [|x xs IH]; simpl.
  - split; [intros _ y []|reflexivity].
  - destruct (body x) as [[]|e|] eqn:E; simpl.
    + rewrite IH. split.
      * intros H y [<-|Hy]; auto.
      * intros H y Hy. apply H. now right.
    + split; [discriminate|]. intros H. specialize (H x (or_introl eq_refl)). congruence.
    + split; [discriminate|]. intros H. specialize (H x (or_introl eq_refl)). congruence.
Qed.

Lemma in_range a b i : In i (range a b) <-> a <= i < b.
Proof.
  unfold range. rewrite in_map_iff. split.
  - intros [k [<- Hk]]. apply in_seq in Hk. lia.
  - intros H. exists (Z.to_nat (i - a)). split; [lia|]. apply in_seq. lia.
Qed.

Lemma length_range a b : List.length (range a b) = Z.to_nat (b - a).
Proof. unfold range. now rewrite length_map, length_seq. Qed.

Lemma in_enumerate data i v :
  In (i, v) (enumerate data) -> 0 <= i < len data /\ item data i = v.
Proof.
  unfold enumerate, range, item, len. rewrite Z.sub_0_r, Nat2Z.id.
  assert (G : forall (d : list pyval) k j w,
    In (j, w) (combine (map (fun n => 0 + Z.of_nat n) (seq k (List.length d))) d) ->
    Z.of_nat k <= j < Z.of_nat k + Z.of_nat (List.length d) /\
    nth (Z.to_nat j - k) d VNone = w).
  { induction d as [|x d IH]; simpl; intros k j w H; [easy|].
    destruct H as [H|H].
    - inversion H; subst. split; [lia|].
      now replace (Z.to_nat (Z.of_nat k) - k)%nat with O by lia.
    - apply IH in H as [H1 H2]. split; [lia|].
      replace (Z.to_nat j - k)%nat with (S (Z.to_nat j - S k)) by lia.
      exact H2. }
  intros H. apply G in H as [H1 H2]. split; [lia|].
  now rewrite Nat.sub_0_r in H2.
Qed.

Lemma enumerate_In data v : In v data -> exists i, In (i, v) (enumerate data).
Proof.
  unfold enumerate. generalize (range 0 (len data)) (length_range 0 (len data)).
  unfold len. rewrite Z.sub_0_r, Nat2Z.id.
  induction data as [|x d IH]; intros l Hl H; [easy|].
  destruct l as [|j l]; [discriminate|]. simpl in *.
  destruct H as [<-|H].
  - exists j. now left.
  - destruct (IH l) as [i Hi]; [congruence|assumption|]. exists i. now right.
Qed.

Lemma validate_input_eq data target :
  _validate_input data target =
  (target_check target ;;
   for_in (range 1 (len data)) (sorted_check data) ;;
   for_in (enumerate data) element_check)%outcome.
Proof.
  unfold _validate_input, target_check.
  destruct (not_finite_number target) as [[]|e|]; reflexivity.
Qed.

Lemma target_check_ok target :
  target_check target = Return tt <-> finite_number target = true.
Proof.
  rewrite finite_number_iff. unfold target_check.
  destruct (not_finite_number target) as [[]|e|]; simpl; split; congruence.
Qed.

Lemma fmt_cases v : fmt v = Return (Fmt v) \/ fmt v = Raise digits_error.
Proof.
  unfold fmt. destruct (printable v); auto.
Qed.

(** What the element check reports is never an [int]. *)
Lemma fmt_not_finite v :
  not_finite_number v = Return true -> fmt v = Return (Fmt v).
Proof.
  destruct v as [z|b|f|s|]; try reflexivity.
  unfold not_finite_number. simpl.
  destruct (Z.abs z <? DBL_INT_LIMIT); discriminate.
Qed.

Lemma element_check_ok i v :
  element_check (i, v) = Return tt <-> finite_number v = true.
Proof.
  rewrite finite_number_iff. unfold element_check.
  destruct (not_finite_number v) as [[]|e|]; simpl;
    try (split; congruence).
  destruct (fmt_cases v) as [-> | ->]; simpl; split; congruence.
Qed.

Lemma elements_check_ok data :
  for_in (enumerate data) element_check = Return tt <-> all_finite data.
Proof.
  rewrite for_in_ok. unfold all_finite. rewrite Forall_forall. split.
  - intros H v Hv. destruct (enumerate_In data v Hv) as [i Hi].
    now apply (element_check_ok i), H.
  - intros H [i v] Hv. apply element_check_ok, H.
    apply in_enumerate in Hv as [Hi <-]. now apply item_In.
Qed.

Lemma sorted_check_ok data i :
  all_finite data -> 1 <= i < len data ->
  sorted_check data i = Return tt <->
  (qval (item data (i - 1)) <= qval (item data i))%Q.
Proof.
  intros Hall Hi. unfold sorted_check.
  rewrite !getitem_in_range by lia. unfold obind at 1 2.
  rewrite py_lt_finite by (apply item_finite; auto; lia). unfold obind.
  rewrite Qle_alt, <- Qcompare_antisym.
  destruct (qval (item data (i - 1)) ?= qval (item data i))%Q;
    unfold CompOpp; try (split; congruence).
  destruct (fmt_cases (item data i)) as [-> | ->];
    [destruct (fmt_cases (item data (i - 1))) as [-> | ->] |];
    split; congruence.
Qed.

Lemma sorted_loop_ok data :
  all_finite data ->
  for_in (range 1 (len data)) (sorted_check data) = Return tt <->
  non_decreasing data.
Proof.
  intros Hall. rewrite for_in_ok. split.
  - intros H i x y Hx Hy.
    assert (Hlt : (S i < List.length data)%nat) by (apply nth_error_Some; congruence).
    specialize (H (Z.of_nat (S i))).
    rewrite in_range, sorted_check_ok in H by (unfold len; auto; lia).
    unfold item in H.
    replace (Z.to_nat (Z.of_nat (S i) - 1)) with i in H by lia.
    rewrite Nat2Z.id in H.
    rewrite (nth_error_nth _ _ VNone Hx), (nth_error_nth _ _ VNone Hy) in H.
    apply H. unfold len. lia.
  - intros H i Hi. apply in_range in Hi.
    apply sorted_check_ok; auto.
    apply (H (Z.to_nat (i - 1))).
    + apply item_nth_error. lia.
    + replace (S (Z.to_nat (i - 1))) with (Z.to_nat i) by lia.
      apply item_nth_error. lia.
Qed.

(** Validation passes exactly on a finite target and a non-decreasing list
    of finite numbers. *)
Lemma validate_input_ok data target :
  _validate_input data target = Return tt <->
  finite_number target = true /\ all_finite data /\ non_decreasing data.
Proof.
  rewrite validate_input_eq. split.
  - intros H.
    destruct (target_check target) as [[]|e|] eqn:Et; try discriminate.
    simpl in H.
    destruct (for_in (range 1 (len data)) (sorted_check data)) as [[]|e|] eqn:Es;
      try discriminate.
    simpl in H. apply elements_check_ok in H.
    repeat split; auto.
    + now apply target_check_ok.
    + now apply sorted_loop_ok.
  - intros (Ht & Hall & Hs).
    apply target_check_ok in Ht. rewrite Ht. simpl.
    apply sorted_loop_ok in Hs; auto. rewrite Hs. simpl.
    now apply elements_check_ok.
Qed.

(** ** One pass of the loop *)

Lemma midpoint_bounds left right :
  left <= right -> left <= midpoint left right <= right.
Proof.
  intros H. unfold midpoint. split.
  - apply Z.div_le_lower_bound; lia.
  - apply Z.div_le_upper_bound; lia.
Qed.

Lemma comparison_result_finite target mv :
  finite_number target = true -> finite_number mv = true ->
  _get_comparison_result target mv =
  Return match (qval mv ?= qval target)%Q with
         | Eq => "equal" | Lt => "greater" | Gt => "less"
         end.
Proof.
  intros Ht Hm. unfold _get_comparison_result.
  rewrite py_eq_finite, py_lt_finite by assumption.
  rewrite <- (Qcompare_antisym (qval mv) (qval target)).
  now destruct (qval mv ?= qval target)%Q.
Qed.

Lemma comparison_symbol_finite target mv :
  finite_number target = true -> finite_number mv = true ->
  _get_comparison_symbol target mv =
  Return match (qval mv ?= qval target)%Q with
         | Eq => "==" | Lt => ">" | Gt => "<"
         end.
Proof.
  intros Ht Hm. unfold _get_comparison_symbol.
  rewrite py_eq_finite, py_lt_finite by assumption.
  rewrite <- (Qcompare_antisym (qval mv) (qval target)).
  now destruct (qval mv ?= qval target)%Q.
Qed.

Ltac run_method :=
  cbv beta iota delta
    [bind when lift ret _add_step get_steps set_steps get_comparisons
     set_comparisons self_steps self_comparisons].

(** On validated input one pass neither raises nor reads out of range, and
    does exactly this. *)
Lemma loop_body_eq data target track left right self :
  all_finite data -> finite_number target = true ->
  0 <= left -> left <= right -> right < len data ->
  loop_body data target track left right self =
  (Return (next_ctl (cmp_at data target (midpoint left right)) left right),
   mkSelf
     (if track
      then pushes (self_steps self)
             (body_steps data target left right (self_comparisons self + 1))
      else self_steps self)
     (self_comparisons self + 1)).
Proof.
  intros Hall Ht H0 Hlr Hr.
  pose proof (midpoint_bounds left right Hlr) as Hm.
  assert (Hfm : finite_number (item data (midpoint left right)) = true)
    by (apply item_finite; auto; lia).
  destruct self as [l n].
  unfold loop_body, body_steps, next_ctl, cmp_at.
  fold (midpoint left right).
  destruct track; run_method.
  - rewrite !getitem_in_range by lia. run_method.
    rewrite comparison_result_finite, comparison_symbol_finite by assumption.
    rewrite py_eq_finite, py_lt_finite by assumption.
    destruct (qval (item data (midpoint left right)) ?= qval target)%Q;
      reflexivity.
  - rewrite !getitem_in_range by lia.
    rewrite py_eq_finite, py_lt_finite by assumption.
    destruct (qval (item data (midpoint left right)) ?= qval target)%Q;
      reflexivity.
Qed.

(** ** The whole loop, as a relation *)

Lemma pushes_cons l a rest : pushes l (a :: rest) = pushes (push l a) rest.
Proof. reflexivity. Qed.

Lemma pushes_app l a b : pushes l (a ++ b) = pushes (pushes l a) b.
Proof. unfold pushes. apply fold_left_app. Qed.

(** The loop of the source follows [run], whatever [track_steps], and
    its bound of [fuel] passes is not reached when [fuel] covers the range. *)
Lemma while_loop_run data target :
  all_finite data -> finite_number target = true ->
  forall fuel left right n,
    0 <= left -> right < len data -> right - left + 1 <= Z.of_nat fuel ->
    exists e k evs,
      run data target left right n e k evs /\
      forall l track,
        while_loop fuel data target track left right (mkSelf l n) =
        (Return e, mkSelf (if track then pushes l evs else l) (n + k)).
Proof.
  intros Hall Ht. induction fuel as [|fuel IH]; intros left right n H0 Hr Hw.
  - exists (Exhausted left right), 0, []. split.
    + constructor. lia.
    + intros l track. cbn [while_loop].
      replace (left <=? right) with false by (symmetry; apply Z.leb_gt; lia).
      unfold ret. rewrite Z.add_0_r. now destruct track.
  - destruct (Z.leb_spec left right) as [Hlr|Hlr].
    + pose proof (midpoint_bounds left right Hlr) as Hm.
      destruct (cmp_at data target (midpoint left right)) eqn:C.
      * exists (Returned (mkCore true (midpoint left right))), 1,
          (body_steps data target left right (n + 1)).
        split; [now constructor|]. intros l track. cbn [while_loop].
        replace (left <=? right) with true by (symmetry; apply Z.leb_le; lia).
        unfold bind. rewrite loop_body_eq by (auto; lia). rewrite C.
        cbn [next_ctl self_steps self_comparisons]. unfold ret.
        now destruct track.
      * destruct (IH (midpoint left right + 1) right (n + 1))
          as (e & k & evs & Hrun & Heq); try lia.
        exists e, (k + 1), (body_steps data target left right (n + 1) ++ evs).
        split; [now constructor|]. intros l track. cbn [while_loop].
        replace (left <=? right) with true by (symmetry; apply Z.leb_le; lia).
        unfold bind. rewrite loop_body_eq by (auto; lia). rewrite C.
        cbn [next_ctl self_steps self_comparisons]. rewrite Heq.
        rewrite pushes_app. replace (n + 1 + k) with (n + (k + 1)) by lia.
        now destruct track.
      * destruct (IH left (midpoint left right - 1) (n + 1))
          as (e & k & evs & Hrun & Heq); try lia.
        exists e, (k + 1), (body_steps data target left right (n + 1) ++ evs).
        split; [now constructor|]. intros l track. cbn [while_loop].
        replace (left <=? right) with true by (symmetry; apply Z.leb_le; lia).
        unfold bind. rewrite loop_body_eq by (auto; lia). rewrite C.
        cbn [next_ctl self_steps self_comparisons]. rewrite Heq.
        rewrite pushes_app. replace (n + 1 + k) with (n + (k + 1)) by lia.
        now destruct track.
    + exists (Exhausted left right), 0, []. split.
      * constructor. lia.
      * intros l track. cbn [while_loop].
        replace (left <=? right) with false by (symmetry; apply Z.leb_gt; lia).
        unfold ret. rewrite Z.add_0_r. now destruct track.
Qed.

(** ** The result of [execute] on validated input *)

Lemma execute_eq data target :
  _validate_input data target = Return tt ->
  exists e k evs,
    run data target 0 (len data - 1) 0 e k evs /\
    forall track self,
      execute data target track self =
      (Return (mkResult (exit_found e) (exit_index e)
                 (tracked track (trace_steps data target e k evs)) k),
       mkSelf (tracked track (trace_steps data target e k evs)) k).
Proof.
  intros Hv. pose proof Hv as Hv'.
  apply validate_input_ok in Hv' as (Ht & Hall & _).
  destruct (while_loop_run data target Hall Ht (List.length data) 0 (len data - 1) 0)
    as (e & k & evs & Hrun & Heq); try (unfold len; lia).
  exists e, k, evs. split; [exact Hrun|].
  rewrite Z.add_0_l in Heq.
  intros track [l0 n0]. unfold execute, tracked, trace_steps.
  destruct (len data =? 0) eqn:El.
  - apply Z.eqb_eq in El. rewrite El in Hrun.
    inversion Hrun; subst; try lia.
    destruct track; run_method; rewrite Hv; reflexivity.
  - rewrite pushes_cons.
    destruct e as [r|fl fr]; rewrite ?pushes_app, ?app_nil_r;
      destruct track; run_method; rewrite Hv;
      unfold _binary_search_core; run_method; rewrite Heq; reflexivity.
Qed.

(** When validation fails, [execute] fails in the same way with nothing
    recorded, whatever the object held before. *)
Lemma execute_invalid data target track self e :
  _validate_input data target = Raise e ->
  execute data target track self = (Raise e, mkSelf [] 0).
Proof.
  intros Hv. destruct self as [l0 n0]. unfold execute. run_method.
  now rewrite Hv.
Qed.

Lemma for_in_fuel {A} (xs : list A) (body : A -> outcome unit) :
  (forall x, body x <> OutOfFuel) -> for_in xs body <> OutOfFuel.
Proof.
  intros H. induction xs as [|x xs IH]; simpl; [discriminate|].
  specialize (H x). destruct (body x) as [[]|e|]; simpl; congruence.
Qed.

(** The validator has no loop that could run out of passes: it returns or
    raises. *)
Lemma validate_input_fuel data target : _validate_input data target <> OutOfFuel.
Proof.
  assert (Hn : forall v, not_finite_number v <> OutOfFuel).
  { intros v. unfold not_finite_number.
    destruct (negb (isinstance_number v)); [discriminate|].
    destruct v as [z|b|[q| |n]|s|]; simpl; try discriminate.
    destruct (Z.abs z <? DBL_INT_LIMIT); discriminate. }
  assert (Hg : forall i, getitem data i <> OutOfFuel).
  { intros i. unfold getitem.
    destruct (_ && _); [|discriminate].
    destruct (nth_error _ _); discriminate. }
  assert (Hl : forall a b, py_lt a b <> OutOfFuel).
  { intros a b. unfold py_lt.
    destruct (as_number a), (as_number b), a, b; discriminate. }
  rewrite validate_input_eq.
  unfold target_check. specialize (Hn target) as Hnt.
  destruct (not_finite_number target) as [[]|e|]; simpl; try congruence.
  pose proof (for_in_fuel (range 1 (len data)) (sorted_check data)) as Hs.
  destruct (for_in (range 1 (len data)) (sorted_check data)) as [[]|e|];
    simpl; try discriminate.
  - apply for_in_fuel. intros [i v]. unfold element_check.
    specialize (Hn v). destruct (not_finite_number v) as [[]|e|]; simpl;
      try congruence.
    destruct (fmt_cases v) as [-> | ->]; discriminate.
  - exfalso. apply Hs; [|reflexivity]. intros i. unfold sorted_check.
    specialize (Hg i) as Hgi. destruct (getitem data i) as [x|e|]; simpl; try congruence.
    specialize (Hg (i - 1)) as Hgj.
    destruct (getitem data (i - 1)) as [y|e|]; simpl; try congruence.
    specialize (Hl x y). destruct (py_lt x y) as [[]|e|]; simpl;
      try congruence.
    destruct (fmt_cases x) as [-> | ->];
      [destruct (fmt_cases y) as [-> | ->] |]; discriminate.
Qed.

(** [execute] always returns or raises, and it raises only what the
    validator raised. *)
Lemma execute_total data target track self :
  (exists r s, execute data target track self = (Return r, s)) \/
  (exists e, _validate_input data target = Raise e /\
             execute data target track self = (Raise e, mkSelf [] 0)).
Proof.
  destruct (_validate_input data target) as [[]|e|] eqn:Hv.
  - left. destruct (execute_eq data target Hv) as (e & k & evs & _ & Heq).
    rewrite Heq. eauto.
  - right. exists e. split; [reflexivity|]. now apply execute_invalid.
  - now apply validate_input_fuel in Hv.
Qed.

(** ** What the loop computes *)

Lemma log2_up_half w :
  1 <= w -> Z.log2_up (w / 2 + 1) + 1 <= Z.log2_up (w + 1).
Proof.
  intros Hw.
  assert (Hk : 0 < Z.log2_up (w + 1)) by (apply Z.log2_up_pos; lia).
  destruct (Z.log2_up_spec (w + 1)) as [_ Hup]; [lia|].
  remember (Z.log2_up (w + 1)) as k.
  replace k with (Z.succ (k - 1)) in Hup by lia.
  rewrite Z.pow_succ_r in Hup by lia.
  assert (H0 : 0 <= w / 2) by (apply Z.div_pos; lia).
  assert (H : w / 2 + 1 <= 2 ^ (k - 1)).
  { assert (w / 2 < 2 ^ (k - 1)); [|lia]. apply Z.div_lt_upper_bound; lia. }
  apply Z.log2_up_le_pow2 in H; lia.
Qed.

Lemma midpoint_halves left right :
  left <= right ->
  right - midpoint left right <= (right - left + 1) / 2 /\
  midpoint left right - left <= (right - left + 1) / 2.
Proof.
  intros H. unfold midpoint. Z.to_euclidean_division_equations. lia.
Qed.

(** The number of passes over a range of [w] elements is at most
    [ceil(log2(w + 1))], and at least one when the range is not empty. *)
Lemma run_count data target left right n e k evs :
  run data target left right n e k evs ->
  0 <= k <= Z.log2_up (right - left + 2) /\ (left <= right -> 1 <= k).
Proof.
  induction 1 as [left right n Hlt | left right n Hle C
                 | left right n e k evs Hle C Hrun IH
                 | left right n e k evs Hle C Hrun IH].
  - split; [|lia]. split; [lia|]. apply Z.log2_up_nonneg.
  - split; [|lia]. split; [lia|].
    assert (0 < Z.log2_up (right - left + 2)) by (apply Z.log2_up_pos; lia). lia.
  - destruct IH as [[IH0 IH1] _]. split; [|lia]. split; [lia|].
    pose proof (midpoint_halves left right Hle) as [Hh _].
    pose proof (log2_up_half (right - left + 1) ltac:(lia)) as Hl.
    assert (Z.log2_up (right - (midpoint left right + 1) + 2)
            <= Z.log2_up ((right - left + 1) / 2 + 1))
      by (apply Z.log2_up_le_mono; lia).
    replace (right - left + 2) with (right - left + 1 + 1) by lia. lia.
  - destruct IH as [[IH0 IH1] _]. split; [|lia]. split; [lia|].
    pose proof (midpoint_halves left right Hle) as [_ Hh].
    pose proof (log2_up_half (right - left + 1) ltac:(lia)) as Hl.
    assert (Z.log2_up (midpoint left right - 1 - left + 2)
            <= Z.log2_up ((right - left + 1) / 2 + 1))
      by (apply Z.log2_up_le_mono; lia).
    replace (right - left + 2) with (right - left + 1 + 1) by lia. lia.
Qed.

(** A [return] from the loop gives an index of the range whose element
    equals the target. *)
Lemma run_returned data target left right n e k evs :
  run data target left right n e k evs ->
  forall r, e = Returned r ->
  exists i, r = mkCore true i /\ left <= i <= right /\ cmp_at data target i = Eq.
Proof.
  induction 1 as [left right n Hlt | left right n Hle C
                 | left right n e k evs Hle C Hrun IH
                 | left right n e k evs Hle C Hrun IH]; intros r Hr.
  - discriminate.
  - inversion Hr; subst. exists (midpoint left right).
    split; [reflexivity|]. split; [now apply midpoint_bounds|assumption].
  - destruct (IH r Hr) as (i & Hi & Hb & Hc). exists i.
    pose proof (midpoint_bounds left right Hle). repeat split; auto; lia.
  - destruct (IH r Hr) as (i & Hi & Hb & Hc). exists i.
    pose proof (midpoint_bounds left right Hle). repeat split; auto; lia.
Qed.

(** On a non-decreasing list, the loop is exhausted only when no element
    of the range equals the target. *)
Lemma run_exhausted_absent data target left right n e k evs :
  non_decreasing data ->
  run data target left right n e k evs ->
  0 <= left -> right < len data ->
  forall final_left final_right, e = Exhausted final_left final_right ->
  forall i, left <= i <= right -> cmp_at data target i <> Eq.
Proof.
  intros Hs.
  induction 1 as [left right n Hlt | left right n Hle C
                 | left right n e k evs Hle C Hrun IH
                 | left right n e k evs Hle C Hrun IH];
    intros H0 Hr fl fr He i Hi.
  - lia.
  - discriminate.
  - pose proof (midpoint_bounds left right Hle) as Hm.
    destruct (Z_le_gt_dec i (midpoint left right)) as [Hlo|Hhi].
    + unfold cmp_at in *. apply (proj2 (Qlt_alt _ _)) in C.
      assert (Hlt : (qval (item data i) < qval target)%Q).
      { eapply Qle_lt_trans; [|exact C].
        apply non_decreasing_le; auto; lia. }
      apply (proj1 (Qlt_alt _ _)) in Hlt. congruence.
    + apply (IH ltac:(lia) Hr fl fr He). lia.
  - pose proof (midpoint_bounds left right Hle) as Hm.
    destruct (Z_lt_ge_dec i (midpoint left right)) as [Hlo|Hhi].
    + apply (IH H0 ltac:(lia) fl fr He). lia.
    + unfold cmp_at in *. apply (proj2 (Qgt_alt _ _)) in C.
      assert (Hlt : (qval target < qval (item data i))%Q).
      { eapply Qlt_le_trans; [exact C|].
        apply non_decreasing_le; auto; lia. }
      apply (proj1 (Qgt_alt _ _)) in Hlt. congruence.
Qed.

Lemma cmp_at_eq data target i :
  all_finite data -> finite_number target = true -> 0 <= i < len data ->
  cmp_at data target i = Eq <-> py_eq (item data i) target = true.
Proof.
  intros Hall Ht Hi. unfold cmp_at.
  rewrite py_eq_finite by (auto using item_finite).
  destruct (qval (item data i) ?= qval target)%Q; split; congruence.
Qed.

(** ** Dicts and stamped traces *)

Lemma dict_get_set_same k v d : dict_get k (dict_set k v d) = Some v.
Proof.
  induction d as [|[k' v'] d IH]; simpl.
  - now rewrite String.eqb_refl.
  - destruct (String.eqb k k') eqn:E; simpl; now rewrite E.
Qed.

Lemma dict_get_set_other k k' v d :
  k <> k' -> dict_get k (dict_set k' v d) = dict_get k d.
Proof.
  intros Hne. induction d as [|[k0 v0] d IH]; simpl.
  - apply String.eqb_neq in Hne. now rewrite Hne.
  - destruct (String.eqb k' k0) eqn:E; simpl; [|now rewrite IH].
    apply String.eqb_eq in E. subst k0.
    apply String.eqb_neq in Hne. now rewrite Hne.
Qed.

Lemma step_type_stamp i s : step_type (stamp i s) = step_type s.
Proof.
  unfold step_type, stamp. now rewrite dict_get_set_other by discriminate.
Qed.

Lemma step_meta_stamp k i s : step_meta k (stamp i s) = step_meta k s.
Proof.
  unfold step_meta, stamp. now rewrite dict_get_set_other by discriminate.
Qed.

Lemma keys_stamp i s :
  keys s = written_keys -> keys (stamp i s) = written_keys ++ ["operationCount"].
Proof.
  unfold keys, written_keys. intros H.
  destruct s as [|[k1 v1] [|[k2 v2] [|[k3 v3] [|[k4 v4] [|? ?]]]]]; try discriminate.
  simpl in H. injection H as -> -> -> ->. reflexivity.
Qed.

Lemma pushes_stamp l new : pushes l new = l ++ stamp_from (List.length l) new.
Proof.
  revert l. induction new as [|s new IH]; intros l.
  - simpl. now rewrite app_nil_r.
  - rewrite pushes_cons, IH. unfold push. rewrite length_app, <- app_assoc.
    simpl. now rewrite Nat.add_1_r.
Qed.

Lemma tracked_stamp l : tracked true l = stamp_from 0 l.
Proof. unfold tracked. now rewrite pushes_stamp. Qed.

Lemma stamp_from_app k a b :
  stamp_from k (a ++ b) = stamp_from k a ++ stamp_from (k + List.length a) b.
Proof.
  revert k. induction a as [|s a IH]; intros k; simpl.
  - now rewrite Nat.add_0_r.
  - rewrite IH. now rewrite Nat.add_succ_comm.
Qed.

Lemma nth_error_stamp_from k new i s :
  nth_error (stamp_from k new) i = Some s ->
  exists s0, nth_error new i = Some s0 /\ s = stamp (k + i) s0.
Proof.
  revert k i. induction new as [|x new IH]; intros k i H.
  - destruct i; discriminate.
  - destruct i as [|i]; simpl in H.
    + inversion H. exists x. now rewrite Nat.add_0_r.
    + apply IH in H as (s0 & H0 & ->). exists s0. split; [exact H0|].
      now rewrite Nat.add_succ_comm.
Qed.

Lemma Forall_stamp_from (P Q : dict -> Prop) k new :
  (forall i s, P s -> Q (stamp i s)) ->
  Forall P new -> Forall Q (stamp_from k new).
Proof.
  intros H HP. revert k. induction HP as [|s new Hs _ IH]; intros k; simpl;
    constructor; auto.
Qed.



(** ** The steps recorded by the loop *)

Lemma body_steps_keys data target left right count :
  Forall (fun s => keys s = written_keys) (body_steps data target left right count).
Proof.
  unfold body_steps.
  destruct (cmp_at data target (midpoint left right)); repeat constructor.
Qed.

Lemma run_keys data target left right n e k evs :
  run data target left right n e k evs ->
  Forall (fun s => keys s = written_keys) evs.
Proof.
  induction 1; try apply Forall_app; auto using body_steps_keys.
Qed.

Lemma trace_steps_keys data target left right n e k evs :
  run data target left right n e k evs ->
  Forall (fun s => keys s = written_keys) (trace_steps data target e k evs).
Proof.
  intros Hrun. unfold trace_steps. constructor; [reflexivity|].
  destruct (len data =? 0); [repeat constructor|].
  apply Forall_app. split; [eapply run_keys; eauto|].
  destruct e; repeat constructor.
Qed.

(** A [return] from the loop is recorded last, by a [found] step. *)
Lemma run_last_found data target left right n e k evs :
  run data target left right n e k evs ->
  forall r, e = Returned r ->
  exists pre s, evs = pre ++ [s] /\ is_found_step s.
Proof.
  induction 1 as [left right n Hlt | left right n Hle C
                 | left right n e k evs Hle C Hrun IH
                 | left right n e k evs Hle C Hrun IH]; intros r Hr.
  - discriminate.
  - unfold body_steps. rewrite C.
    eexists [_; _; _], _. split; reflexivity.
  - destruct (IH r Hr) as (pre & s & -> & Hs).
    exists (body_steps data target left right (n + 1) ++ pre), s.
    split; [now rewrite app_assoc|exact Hs].
  - destruct (IH r Hr) as (pre & s & -> & Hs).
    exists (body_steps data target left right (n + 1) ++ pre), s.
    split; [now rewrite app_assoc|exact Hs].
Qed.

Lemma trace_steps_last data target left right n e k evs :
  run data target left right n e k evs ->
  exists pre s,
    trace_steps data target e k evs = pre ++ [s] /\
    (is_found_step s \/ is_exhausted_step s \/ is_empty_array_step s).
Proof.
  intros Hrun. unfold trace_steps. destruct (len data =? 0).
  - exists [init_step data target], empty_step. split; [reflexivity|].
    right. right. split; reflexivity.
  - destruct e as [r|fl fr].
    + destruct (run_last_found _ _ _ _ _ _ _ _ Hrun r eq_refl) as (pre & s & -> & Hs).
      exists (init_step data target :: pre), s. rewrite app_nil_r.
      split; [reflexivity|now left].
    + exists (init_step data target :: evs), (exhausted_step fl fr target k).
      split; [reflexivity|]. right. left. split; reflexivity.
Qed.







(** A returned, tracked call in terms of a run of the loop. *)
Lemma execute_returned data target track self r self' :
  execute data target track self = (Return r, self') ->
  exists e k evs,
    run data target 0 (len data - 1) 0 e k evs /\
    found r = exit_found e /\ index r = exit_index e /\ comparisons r = k /\
    steps r = if track then stamp_from 0 (trace_steps data target e k evs) else [].
Proof.
  intros H.
  destruct (_validate_input data target) as [[]|x|] eqn:Hv.
  - destruct (execute_eq data target Hv) as (e & k & evs & Hrun & Heq).
    exists e, k, evs. split; [exact Hrun|].
    specialize (Heq track self).
    assert (Ht : tracked track (trace_steps data target e k evs) =
                 if track then stamp_from 0 (trace_steps data target e k evs) else [])
      by (destruct track; [apply tracked_stamp|reflexivity]).
    rewrite Ht in Heq.
    remember (if track then stamp_from 0 (trace_steps data target e k evs) else [])
      as tr eqn:Etr.
    rewrite Heq in H. injection H as <- _. repeat split.
  - rewrite (execute_invalid _ _ _ _ x Hv) in H. discriminate.
  - now apply validate_input_fuel in Hv.
Qed.

(** * The claims *)

(** C1 fails on the code. An int of magnitude 2^1024 - 2^970 or more is a
    finite number, but [math.isfinite] cannot convert it and [_is_finite]
    does not catch the OverflowError (the defect shown for C7). So on the
    non-decreasing list [2**1024], which holds the target 2**1024,
    [binary_search] raises instead of returning index 0; and on the list
    [1], which does not hold that target, it raises instead of returning
    -1. *)
Theorem huge_int_defeats_search :
  non_decreasing [VInt (2 ^ 1024)] /\
  isinstance_number (VInt (2 ^ 1024)) = true /\
  py_eq (VInt (2 ^ 1024)) (VInt (2 ^ 1024)) = true /\
  binary_search [VInt (2 ^ 1024)] (VInt (2 ^ 1024)) = Raise OverflowError /\
  non_decreasing [VInt 1] /\
  py_eq (VInt 1) (VInt (2 ^ 1024)) = false /\
  binary_search [VInt 1] (VInt (2 ^ 1024)) = Raise OverflowError.
Proof.
  assert (Hone : forall v, non_decreasing [v]).
  { intros v i x y Hx Hy. destruct i as [|[|i]]; discriminate Hy. }
  repeat split; try apply Hone; vm_compute; reflexivity.
Qed.

(** C2. With tracking disabled, [execute] gives the same found flag, index
    and comparison count (or the same exception) as with tracking enabled,
    whatever the object held before; and the steps it returns are empty. *)
Theorem tracking_is_an_observer data target self self' :
  visible (fst (execute data target false self)) =
  visible (fst (execute data target true self')) /\
  (forall r, fst (execute data target false self) = Return r -> steps r = []).
Proof.
  destruct (_validate_input data target) as [[]|e|] eqn:Hv.
  - destruct (execute_eq data target Hv) as (e & k & evs & _ & Heq).
    rewrite !Heq. split; [reflexivity|].
    intros r Hr. inversion Hr. reflexivity.
  - rewrite !(execute_invalid _ _ _ _ e Hv). split; [reflexivity|discriminate].
  - now apply validate_input_fuel in Hv.
Qed.

(** C3. On every input that passes validation, the comparison count of the
    result is at most [ceil(log2(n + 1))] for a list of length [n]
    ([Z.log2_up] is the rounded-up base-2 logarithm), and at least 1 when
    the list is not empty, whether the target is found or not. *)
Theorem comparison_count_bounds data target track self :
  _validate_input data target = Return tt ->
  exists r self',
    execute data target track self = (Return r, self') /\
    0 <= comparisons r <= Z.log2_up (len data + 1) /\
    (0 < len data -> 1 <= comparisons r).
Proof.
  intros Hv.
  destruct (execute_eq data target Hv) as (e & k & evs & Hrun & Heq).
  rewrite Heq. eexists _, _. split; [reflexivity|]. cbn [comparisons].
  apply run_count in Hrun.
  replace (len data - 1 - 0 + 2) with (len data + 1) in Hrun by lia.
  destruct Hrun as [Hk H1]. split; [exact Hk|]. intros Hn. apply H1. lia.
Qed.

Lemma comparison_count_bounds_witness :
  exists r self',
    execute (map VInt [1; 3; 5; 7; 9]) (VInt 4) true __init__ = (Return r, self') /\
    0 <= comparisons r <= Z.log2_up (len (map VInt [1; 3; 5; 7; 9]) + 1) /\
    (0 < len (map VInt [1; 3; 5; 7; 9]) -> 1 <= comparisons r).
Proof.
  apply (comparison_count_bounds (map VInt [1; 3; 5; 7; 9]) (VInt 4) true __init__).
  vm_compute. reflexivity.
Defined.

(** C4 fails on the code, by the defect shown for C7: for the finite
    target 2**1024, [execute] on the empty list raises OverflowError in
    the validator, with or without tracking, instead of returning
    found=False, index=-1 and zero comparisons; the same holds of
    [binary_search]. *)
Theorem huge_target_defeats_empty_search track self :
  isinstance_number (VInt (2 ^ 1024)) = true /\
  execute [] (VInt (2 ^ 1024)) track self = (Raise OverflowError, mkSelf [] 0) /\
  binary_search [] (VInt (2 ^ 1024)) = Raise OverflowError.
Proof.
  split; [reflexivity|].
  split; [apply execute_invalid|]; vm_compute; reflexivity.
Qed.

(** C5. In every trace produced with tracking, the stamp of each step (the
    key [operationCount]) is its 1-based position, and the last step is a
    [found] step, or an [eliminate] step with [searchExhausted] true, or the
    empty-array [eliminate] step. *)
Theorem trace_is_numbered data target self r self' :
  execute data target true self = (Return r, self') ->
  (forall i s, nth_error (steps r) i = Some s ->
               dict_get "operationCount" s = Some (oint (Z.of_nat i + 1))) /\
  exists pre s,
    steps r = pre ++ [s] /\
    (is_found_step s \/ is_exhausted_step s \/ is_empty_array_step s).
Proof.
  intros H.
  destruct (_validate_input data target) as [[]|e|] eqn:Hv.
  - destruct (execute_eq data target Hv) as (e & k & evs & Hrun & Heq).
    specialize (Heq true self). rewrite tracked_stamp in Heq.
    remember (stamp_from 0 (trace_steps data target e k evs)) as tr eqn:Etr.
    rewrite Heq in H. injection H as <- _. subst tr. cbn [steps]. split.
    + intros i s Hs. apply nth_error_stamp_from in Hs as (s0 & _ & ->).
      apply dict_get_set_same.
    + destruct (trace_steps_last _ _ _ _ _ _ _ _ Hrun) as (pre & s & -> & Hs).
      rewrite stamp_from_app. cbn [stamp_from].
      eexists _, _. split; [reflexivity|].
      unfold is_found_step, is_exhausted_step, is_empty_array_step in *.
      now rewrite step_type_stamp, !step_meta_stamp.
  - rewrite (execute_invalid _ _ _ _ e Hv) in H. discriminate.
  - now apply validate_input_fuel in Hv.
Qed.

Lemma trace_is_numbered_witness :
  exists r,
    binary_search_with_steps (map VInt [1; 3; 5; 7; 9]) (VInt 4) = Return r /\
    (forall i s, nth_error (steps r) i = Some s ->
                 dict_get "operationCount" s = Some (oint (Z.of_nat i + 1))) /\
    exists pre s,
      steps r = pre ++ [s] /\
      (is_found_step s \/ is_exhausted_step s \/ is_empty_array_step s).
Proof.
  eexists. split; [vm_compute; reflexivity|].
  refine (trace_is_numbered (map VInt [1; 3; 5; 7; 9]) (VInt 4) __init__ _ _ _).
  vm_compute. reflexivity.
Defined.




(** C7 fails on the code. A list holding a value that is not a number makes
    the sortedness scan, which runs before the per-element check, compare
    it: [execute([1, 'a'], 1)] raises TypeError, not the validation error.
    Likewise an int too large for [math.isfinite] raises OverflowError, and
    for [3, 1, NaN] the error raised is the sortedness one, which names
    neither index 2 nor the NaN. *)
Theorem non_number_escapes_validation track self :
  execute [VInt 1; VStr "a"] (VInt 1) track self = (Raise TypeError, mkSelf [] 0) /\
  binary_search [VInt 1; VStr "a"] (VInt 1) = Raise TypeError /\
  execute [VInt (2 ^ 1024)] (VInt 1) track self = (Raise OverflowError, mkSelf [] 0) /\
  (exists msg,
     _validate_input [VInt 3; VInt 1; VFloat FNaN] (VInt 1) = Raise (ValueError msg) /\
     ~ mentions msg (VInt 2) /\ ~ mentions msg (VFloat FNaN)).
Proof.
  split; [apply execute_invalid; vm_compute; reflexivity|].
  split; [vm_compute; reflexivity|].
  split; [apply execute_invalid; vm_compute; reflexivity|].
  eexists. split; [vm_compute; reflexivity|].
  unfold mentions. simpl. split; intros H;
    repeat (destruct H as [H|H]; [discriminate|]); exact H.
Qed.

(** C8. Once validation passes, whenever the loop test is reached
    [0 <= left] and [right <= len(data) - 1]; when the body is entered,
    [mid] lies in [0, len(data) - 1], the three reads [data[left]],
    [data[mid]], [data[right]] succeed and the pass does not raise; and
    [execute] returns. *)
Theorem loop_stays_in_bounds data target track left right self :
  _validate_input data target = Return tt ->
  reachable data target track left right self ->
  0 <= left /\ right <= len data - 1 /\
  (left <= right ->
   let mid := (left + right) / 2 in
   0 <= mid <= len data - 1 /\
   (exists lv mv rv,
      getitem data left = Return lv /\ getitem data mid = Return mv /\
      getitem data right = Return rv) /\
   (exists c self', loop_body data target track left right self = (Return c, self'))) /\
  (forall self0, exists r self1, execute data target track self0 = (Return r, self1)).
Proof.
  intros Hv Hreach.
  pose proof Hv as Hv'. apply validate_input_ok in Hv' as (Ht & Hall & _).
  assert (Hb : 0 <= left /\ right <= len data - 1).
  { induction Hreach as [self|left right self left' right' self' Hreach IH Hle Hbody].
    - lia.
    - destruct IH as [IH0 IH1].
      rewrite loop_body_eq in Hbody by (auto; lia).
      pose proof (midpoint_bounds left right Hle) as Hm.
      injection Hbody as Hc _. unfold next_ctl in Hc.
      destruct (cmp_at data target (midpoint left right));
        [discriminate|injection Hc as <- <-; lia|injection Hc as <- <-; lia]. }
  destruct Hb as [H0 H1]. split; [exact H0|]. split; [exact H1|]. split.
  - intros Hle mid. pose proof (midpoint_bounds left right Hle) as Hm.
    fold (midpoint left right) in mid. subst mid. split; [lia|]. split.
    + exists (item data left), (item data (midpoint left right)), (item data right).
      rewrite !getitem_in_range by lia. auto.
    + rewrite loop_body_eq by (auto; lia). eauto.
  - intros self0.
    destruct (execute_eq data target Hv) as (e & k & evs & _ & Heq).
    rewrite Heq. eauto.
Qed.

Lemma loop_stays_in_bounds_witness :
  let data := map VInt [1; 3; 5; 7; 9] in
  0 <= 3 /\ 4 <= len data - 1 /\
  (3 <= 4 ->
   let mid := (3 + 4) / 2 in
   0 <= mid <= len data - 1 /\
   (exists lv mv rv,
      getitem data 3 = Return lv /\ getitem data mid = Return mv /\
      getitem data 4 = Return rv) /\
   (exists c self',
      loop_body data (VInt 9) false 3 4 (mkSelf [] 1) = (Return c, self'))) /\
  (forall self0, exists r self1, execute data (VInt 9) false self0 = (Return r, self1)).
Proof.
  apply (loop_stays_in_bounds (map VInt [1; 3; 5; 7; 9]) (VInt 9) false 3 4 (mkSelf [] 1)).
  - vm_compute. reflexivity.
  - apply (reach_pass _ _ _ 0 4 (mkSelf [] 0)).
    + apply reach_entry.
    + lia.
    + vm_compute. reflexivity.
Defined.

(** C9 (as amended). The serialized result has exactly the keys [found],
    [index], [steps], [comparisons], the entry [steps] holding the step
    dicts; and every step has exactly the keys [type], [indices],
    [metadata], [description], [operationCount]. *)
Theorem serialized_field_names data target track self r self' :
  execute data target track self = (Return r, self') ->
  keys (to_dict r) = ["found"; "index"; "steps"; "comparisons"] /\
  dict_get "steps" (to_dict r) = Some (OList (map ODict (steps r))) /\
  Forall (fun s => keys s =
            ["type"; "indices"; "metadata"; "description"; "operationCount"])
         (steps r).
Proof.
  intros H. split; [reflexivity|]. split; [reflexivity|].
  apply execute_returned in H as (e & k & evs & Hrun & _ & _ & _ & ->).
  destruct track; [|constructor].
  eapply Forall_stamp_from; [|eapply trace_steps_keys; eauto].
  intros i s Hs. now apply keys_stamp.
Qed.

Lemma serialized_field_names_witness :
  exists r,
    binary_search_with_steps (map VInt [5]) (VInt 5) = Return r /\
    keys (to_dict r) = ["found"; "index"; "steps"; "comparisons"] /\
    dict_get "steps" (to_dict r) = Some (OList (map ODict (steps r))) /\
    Forall (fun s => keys s =
              ["type"; "indices"; "metadata"; "description"; "operationCount"])
           (steps r).
Proof.
  eexists. split; [vm_compute; reflexivity|].
  refine (serialized_field_names (map VInt [5]) (VInt 5) true __init__ _ _ _).
  vm_compute. reflexivity.
Defined.

(** C9 as stated fails: the serialized result of searching [5] for 5 has no
    field [trace] or [comparisonCount], and its steps have no field [kind]
    or [sequenceNumber]. *)
Lemma claimed_field_names_counterexample :
  exists r,
    binary_search_with_steps (map VInt [5]) (VInt 5) = Return r /\
    dict_get "trace" (to_dict r) = None /\
    dict_get "comparisonCount" (to_dict r) = None /\
    steps r <> [] /\
    Forall (fun s => dict_get "kind" s = None /\
                     dict_get "sequenceNumber" s = None) (steps r).
Proof.
  eexists. split; [vm_compute; reflexivity|].
  split; [reflexivity|]. split; [reflexivity|]. split; [discriminate|].
  repeat constructor.
Qed.



(** * Further properties of the code *)

(** ** Ranges and loops of the validator *)

Lemma range_nil a b : b <= a -> range a b = [].
Proof.
  intros H. unfold range. now replace (Z.to_nat (b - a)) with O by lia.
Qed.

Lemma range_cons a b : a < b -> range a b = a :: range (a + 1) b.
Proof.
  intros H. unfold range.
  replace (Z.to_nat (b - a)) with (S (Z.to_nat (b - (a + 1)))) by lia.
  simpl. rewrite Z.add_0_r. f_equal.
  rewrite <- seq_shift, map_map. apply map_ext. intros n. lia.
Qed.

Lemma range_app a i b : a <= i <= b -> range a b = range a i ++ range i b.
Proof.
  intros H. remember (Z.to_nat (i - a)) as n eqn:En.
  revert a H En. induction n as [|n IH]; intros a H En.
  - assert (i = a) by lia. subst i. now rewrite (range_nil a a) by lia.
  - rewrite (range_cons a b), (range_cons a i) by lia.
    simpl. f_equal. apply IH; lia.
Qed.



(** ** The validator *)

(** X1. [execute] returns a result exactly when the target is a finite
    number and the list is a non-decreasing list of finite numbers; in
    every other case it raises. *)
Theorem execute_accepts_exactly data target track self :
  (exists r self', execute data target track self = (Return r, self')) <->
  finite_number target = true /\ all_finite data /\ non_decreasing data.
Proof.
  split.
  - intros (r & self' & H).
    destruct (_validate_input data target) as [[]|e|] eqn:Hv.
    + now apply validate_input_ok.
    + rewrite (execute_invalid _ _ _ _ e Hv) in H. discriminate.
    + now apply validate_input_fuel in Hv.
  - intros H. apply validate_input_ok in H.
    destruct (execute_eq data target H) as (e & k & evs & _ & Heq).
    rewrite Heq. eauto.
Qed.

(** X2. The target is checked before the list: a target that is a string,
    None, NaN or an infinity makes [execute] raise "Target must be a finite
    number" whatever the list holds, with nothing recorded. *)
Theorem target_is_checked_first data target track self :
  (exists s, target = VStr s) \/ target = VNone \/ target = VFloat FNaN \/
  (exists n, target = VFloat (FInf n)) ->
  execute data target track self =
  (Raise (ValueError [Lit "Target must be a finite number"]), mkSelf [] 0).
Proof.
  intros H. apply execute_invalid.
  unfold _validate_input.
  destruct H as [[s ->]|[->|[->|[n ->]]]]; reflexivity.
Qed.

Lemma target_is_checked_first_witness :
  execute [VStr "b"; VInt 1] (VFloat FNaN) true __init__ =
  (Raise (ValueError [Lit "Target must be a finite number"]), mkSelf [] 0).
Proof.
  apply (target_is_checked_first [VStr "b"; VInt 1] (VFloat FNaN) true __init__).
  right. right. left. reflexivity.
Defined.





(** ** The search *)

(** The loop has one run. *)
Lemma run_functional data target left right n e k evs :
  run data target left right n e k evs ->
  forall e' k' evs', run data target left right n e' k' evs' ->
  e = e' /\ k = k' /\ evs = evs'.
Proof.
  induction 1 as [left right n Hlt | left right n Hle C
                 | left right n e k evs Hle C Hrun IH
                 | left right n e k evs Hle C Hrun IH];
    intros e' k' evs' H'; inversion H'; subst; try lia; try congruence; auto;
    match goal with
    | Hr : run _ _ _ _ _ _ _ _ |- _ =>
        destruct (IH _ _ _ Hr) as (? & ? & ?); subst; solve [auto]
    end.
Qed.

Lemma execute_of_run data target e k evs :
  _validate_input data target = Return tt ->
  run data target 0 (len data - 1) 0 e k evs ->
  forall track self,
    execute data target track self =
    (Return (mkResult (exit_found e) (exit_index e)
               (tracked track (trace_steps data target e k evs)) k),
     mkSelf (tracked track (trace_steps data target e k evs)) k).
Proof.
  intros Hv Hrun.
  destruct (execute_eq data target Hv) as (e0 & k0 & evs0 & Hrun0 & Heq).
  destruct (run_functional _ _ _ _ _ _ _ _ Hrun _ _ _ Hrun0) as (-> & -> & ->).
  exact Heq.
Qed.

Lemma execute_returns_valid data target track self r self' :
  execute data target track self = (Return r, self') ->
  _validate_input data target = Return tt.
Proof.
  intros H. destruct (_validate_input data target) as [[]|e|] eqn:Hv.
  - reflexivity.
  - rewrite (execute_invalid _ _ _ _ e Hv) in H. discriminate.
  - now apply validate_input_fuel in Hv.
Qed.

Lemma cmp_at_lt data target i :
  all_finite data -> finite_number target = true -> 0 <= i < len data ->
  cmp_at data target i = Lt <-> py_lt (item data i) target = Return true.
Proof.
  intros Hall Ht Hi. unfold cmp_at.
  rewrite py_lt_finite by (auto using item_finite).
  destruct (qval (item data i) ?= qval target)%Q; split; congruence.
Qed.

Lemma cmp_at_gt data target i :
  all_finite data -> finite_number target = true -> 0 <= i < len data ->
  cmp_at data target i = Gt <-> py_lt target (item data i) = Return true.
Proof.
  intros Hall Ht Hi. unfold cmp_at.
  rewrite py_lt_finite by (auto using item_finite).
  rewrite <- (Qcompare_antisym (qval (item data i)) (qval target)).
  destruct (qval (item data i) ?= qval target)%Q; simpl; split; congruence.
Qed.

(** X5. Whenever [execute] returns: if [found] is true, [index] is a
    position of the list and the element there equals the target; if
    [found] is false, [index] is -1. The comparison count is never
    negative. *)
Theorem result_is_well_formed data target track self r self' :
  execute data target track self = (Return r, self') ->
  (found r = true ->
   0 <= index r < len data /\
   exists v, getitem data (index r) = Return v /\ py_eq v target = true) /\
  (found r = false -> index r = -1) /\
  0 <= comparisons r.
Proof.
  intros H. pose proof (execute_returns_valid _ _ _ _ _ _ H) as Hv.
  apply validate_input_ok in Hv as (Ht & Hall & _).
  apply execute_returned in H as (e & k & evs & Hrun & -> & -> & -> & _).
  pose proof (run_count _ _ _ _ _ _ _ _ Hrun) as [[Hk _] _].
  split; [|split; [|exact Hk]].
  - destruct e as [c|fl fr]; [|discriminate]. intros _.
    destruct (run_returned _ _ _ _ _ _ _ _ Hrun c eq_refl) as (i & -> & Hb & Hc).
    cbn [exit_index core_index]. split; [lia|].
    exists (item data i). rewrite getitem_in_range by lia.
    split; [reflexivity|]. apply cmp_at_eq; auto. lia.
  - destruct e as [c|fl fr]; [|reflexivity]. intros Hf.
    destruct (run_returned _ _ _ _ _ _ _ _ Hrun c eq_refl) as (i & -> & _).
    discriminate.
Qed.

Lemma result_is_well_formed_witness :
  exists r,
    binary_search_with_steps (map VInt [1; 3; 5; 7; 9]) (VInt 7) = Return r /\
    (found r = true ->
     0 <= index r < len (map VInt [1; 3; 5; 7; 9]) /\
     exists v, getitem (map VInt [1; 3; 5; 7; 9]) (index r) = Return v /\
               py_eq v (VInt 7) = true) /\
    (found r = false -> index r = -1) /\
    0 <= comparisons r.
Proof.
  eexists. split; [vm_compute; reflexivity|].
  refine (result_is_well_formed (map VInt [1; 3; 5; 7; 9]) (VInt 7) true __init__ _ _ _).
  vm_compute. reflexivity.
Defined.

Lemma validate_input_target data t1 t2 :
  finite_number t1 = true -> finite_number t2 = true ->
  _validate_input data t1 = _validate_input data t2.
Proof.
  intros H1 H2. rewrite !validate_input_eq.
  apply target_check_ok in H1, H2. now rewrite H1, H2.
Qed.

Lemma run_target_value data t1 t2 left right n e k evs :
  (qval t1 == qval t2)%Q ->
  run data t1 left right n e k evs ->
  exists evs', run data t2 left right n e k evs'.
Proof.
  intros Hq.
  assert (Hc : forall i, cmp_at data t1 i = cmp_at data t2 i).
  { intros i. unfold cmp_at. apply Qcompare_comp; [reflexivity|exact Hq]. }
  induction 1 as [left right n Hlt | left right n Hle C
                 | left right n e k evs Hle C Hrun IH
                 | left right n e k evs Hle C Hrun IH].
  - eexists. now constructor.
  - eexists. constructor; [assumption|]. now rewrite <- Hc.
  - destruct IH as (evs' & IH). eexists.
    apply run_left; [assumption| |exact IH]. now rewrite <- Hc.
  - destruct IH as (evs' & IH). eexists.
    apply run_right; [assumption| |exact IH]. now rewrite <- Hc.
Qed.

(** X6. The search depends on the target only through its numeric value:
    two finite targets that are equal as numbers (such as 2 and 2.0, or
    True and 1) give the same found flag, index and comparison count, or
    the same exception. *)
Theorem search_depends_on_target_value data t1 t2 track self self' :
  finite_number t1 = true -> finite_number t2 = true ->
  (qval t1 == qval t2)%Q ->
  visible (fst (execute data t1 track self)) =
  visible (fst (execute data t2 track self')).
Proof.
  intros H1 H2 Hq.
  pose proof (validate_input_target data t1 t2 H1 H2) as Hsame.
  destruct (_validate_input data t1) as [[]|x|] eqn:Hv.
  - symmetry in Hsame.
    destruct (execute_eq data t1 Hv) as (e & k & evs & Hrun & Heq).
    destruct (run_target_value _ _ _ _ _ _ _ _ _ Hq Hrun) as (evs' & Hrun').
    rewrite Heq, (execute_of_run data t2 e k evs' Hsame Hrun'). reflexivity.
  - symmetry in Hsame.
    now rewrite (execute_invalid _ _ _ _ x Hv), (execute_invalid _ _ _ _ x Hsame).
  - now apply validate_input_fuel in Hv.
Qed.

Lemma search_depends_on_target_value_witness :
  visible (fst (execute (map VInt [0; 1; 4]) (VBool true) true __init__)) =
  visible (fst (execute (map VInt [0; 1; 4]) (VFloat (FFinite (2 # 2))) false __init__)).
Proof.
  apply (search_depends_on_target_value (map VInt [0; 1; 4]) (VBool true)
           (VFloat (FFinite (2 # 2))) true __init__ __init__).
  - reflexivity.
  - reflexivity.
  - reflexivity.
Defined.

(** X7. Best case: on validated input, when the middle element
    [data[(len(data) - 1) // 2]] equals the target, the search returns that
    index after exactly one comparison. *)
Theorem middle_hit_takes_one_comparison data target track self :
  _validate_input data target = Return tt ->
  0 < len data ->
  py_eq (item data ((len data - 1) / 2)) target = true ->
  exists r self',
    execute data target track self = (Return r, self') /\
    found r = true /\ index r = (len data - 1) / 2 /\ comparisons r = 1.
Proof.
  intros Hv Hn He. pose proof Hv as Hv'.
  apply validate_input_ok in Hv' as (Ht & Hall & _).
  assert (Hm : midpoint 0 (len data - 1) = (len data - 1) / 2)
    by (unfold midpoint; now rewrite Z.add_0_l).
  pose proof (midpoint_bounds 0 (len data - 1) ltac:(lia)) as Hb.
  assert (Hrun : run data target 0 (len data - 1) 0
                   (Returned (mkCore true (midpoint 0 (len data - 1)))) 1
                   (body_steps data target 0 (len data - 1) (0 + 1))).
  { constructor; [lia|]. apply cmp_at_eq; auto; try lia. }
  rewrite (execute_of_run data target _ _ _ Hv Hrun).
  eexists _, _. split; [reflexivity|]. cbn. auto.
Qed.

Lemma middle_hit_takes_one_comparison_witness :
  exists r self',
    execute (map VInt [1; 3; 5; 7; 9; 11]) (VInt 5) false __init__ = (Return r, self') /\
    found r = true /\
    index r = (len (map VInt [1; 3; 5; 7; 9; 11]) - 1) / 2 /\
    comparisons r = 1.
Proof.
  apply (middle_hit_takes_one_comparison (map VInt [1; 3; 5; 7; 9; 11]) (VInt 5)
           false __init__).
  - vm_compute. reflexivity.
  - reflexivity.
  - reflexivity.
Defined.

Lemma log2_up_half_eq w :
  1 <= w -> Z.log2_up (w / 2 + 1) + 1 = Z.log2_up (w + 1).
Proof.
  intros Hw. apply Z.le_antisymm; [now apply log2_up_half|].
  assert (H0 : 0 <= w / 2) by (apply Z.div_pos; lia).
  pose proof (Z.log2_up_nonneg (w / 2 + 1)) as Hj.
  apply Z.log2_up_le_pow2; [lia|].
  replace (Z.log2_up (w / 2 + 1) + 1) with (Z.succ (Z.log2_up (w / 2 + 1))) by lia.
  rewrite Z.pow_succ_r by lia.
  assert (Hs : w / 2 + 1 <= 2 ^ Z.log2_up (w / 2 + 1)).
  { destruct (Z.eq_dec (w / 2) 0) as [E|E].
    - rewrite E. simpl. lia.
    - apply Z.log2_up_spec. lia. }
  Z.to_euclidean_division_equations. lia.
Qed.

(** When every element of the range is below the target, the loop always
    goes right and uses the full count. *)
Lemma run_all_below data target left right n e k evs :
  run data target left right n e k evs ->
  left <= right + 1 ->
  (forall i, left <= i <= right -> cmp_at data target i = Lt) ->
  e = Exhausted (right + 1) right /\ k = Z.log2_up (right - left + 2).
Proof.
  induction 1 as [left right n Hlt | left right n Hle C
                 | left right n e k evs Hle C Hrun IH
                 | left right n e k evs Hle C Hrun IH]; intros Hw Hb.
  - assert (left = right + 1) by lia. subst left.
    split; [reflexivity|]. now replace (right - (right + 1) + 2) with 1 by lia.
  - rewrite Hb in C by (apply midpoint_bounds; lia). discriminate.
  - pose proof (midpoint_bounds left right Hle) as Hm.
    destruct IH as [-> ->]; [lia|intros i Hi; apply Hb; lia|].
    split; [reflexivity|].
    replace (right - left + 2) with (right - left + 1 + 1) by lia.
    rewrite <- (log2_up_half_eq (right - left + 1)) by lia.
    do 2 f_equal. unfold midpoint. Z.to_euclidean_division_equations. lia.
  - rewrite Hb in C by (apply midpoint_bounds; lia). discriminate.
Qed.

(** X8. Worst case: on validated input, when the target is greater than
    every element the search fails after exactly [ceil(log2(n + 1))]
    comparisons, so the bound on the comparison count is attained for
    every length [n]. *)
Theorem worst_case_is_attained data target track self :
  _validate_input data target = Return tt ->
  (forall v, In v data -> py_lt v target = Return true) ->
  exists r self',
    execute data target track self = (Return r, self') /\
    found r = false /\ index r = -1 /\
    comparisons r = Z.log2_up (len data + 1).
Proof.
  intros Hv Hlt. pose proof Hv as Hv'.
  apply validate_input_ok in Hv' as (Ht & Hall & _).
  destruct (execute_eq data target Hv) as (e & k & evs & Hrun & Heq).
  rewrite Heq. eexists _, _. split; [reflexivity|].
  pose proof (len_nonneg data) as Hn.
  destruct (run_all_below _ _ _ _ _ _ _ _ Hrun ltac:(lia)) as [-> ->].
  - intros i Hi. apply cmp_at_lt; auto; [lia|]. apply Hlt, item_In. lia.
  - cbn. repeat split. f_equal. lia.
Qed.

Lemma worst_case_is_attained_witness :
  exists r self',
    execute (map VInt [1; 3; 5; 7; 9]) (VInt 10) true __init__ = (Return r, self') /\
    found r = false /\ index r = -1 /\
    comparisons r = Z.log2_up (len (map VInt [1; 3; 5; 7; 9]) + 1).
Proof.
  apply (worst_case_is_attained (map VInt [1; 3; 5; 7; 9]) (VInt 10) true __init__).
  - vm_compute. reflexivity.
  - intros v Hv. simpl in Hv.
    repeat (destruct Hv as [<-|Hv]; [reflexivity|]). contradiction.
Defined.

(** On a non-decreasing list an exhausted loop stops with [left] one
    past [right], at the place where the target would be inserted. *)
Lemma run_insertion_point data target left right n e k evs :
  non_decreasing data ->
  run data target left right n e k evs ->
  0 <= left -> right < len data -> left <= right + 1 ->
  forall final_left final_right, e = Exhausted final_left final_right ->
  final_right = final_left - 1 /\ left <= final_left <= right + 1 /\
  (forall i, left <= i < final_left -> cmp_at data target i = Lt) /\
  (forall i, final_left <= i <= right -> cmp_at data target i = Gt).
Proof.
  intros Hs.
  induction 1 as [left right n Hlt | left right n Hle C
                 | left right n e k evs Hle C Hrun IH
                 | left right n e k evs Hle C Hrun IH];
    intros H0 Hr Hw fl fr He.
  - injection He as <- <-. repeat split; try lia; intros i Hi; lia.
  - discriminate.
  - pose proof (midpoint_bounds left right Hle) as Hm.
    destruct (IH ltac:(lia) Hr ltac:(lia) fl fr He) as (Hfr & Hfl & Hlo & Hhi).
    repeat split; try lia; [|exact Hhi].
    intros i Hi. destruct (Z_le_gt_dec i (midpoint left right)) as [Hi'|Hi'].
    + unfold cmp_at in *. apply (proj2 (Qlt_alt _ _)) in C.
      apply (proj1 (Qlt_alt _ _)).
      eapply Qle_lt_trans; [|exact C]. apply non_decreasing_le; auto; lia.
    + apply Hlo. lia.
  - pose proof (midpoint_bounds left right Hle) as Hm.
    destruct (IH H0 ltac:(lia) ltac:(lia) fl fr He) as (Hfr & Hfl & Hlo & Hhi).
    repeat split; try lia; [exact Hlo|].
    intros i Hi. destruct (Z_lt_ge_dec i (midpoint left right)) as [Hi'|Hi'].
    + apply Hhi. lia.
    + unfold cmp_at in *. apply (proj2 (Qgt_alt _ _)) in C.
      apply (proj1 (Qgt_alt _ _)).
      eapply Qlt_le_trans; [exact C|]. apply non_decreasing_le; auto; lia.
Qed.

(** X9. When a tracked search of a non-empty list fails, the last step
    records [finalLeft = p] and [finalRight = p - 1], where [p] is the
    insertion point of the target: every element before position [p] is
    less than the target and every element from [p] on is greater. It also
    records the comparison count of the result. *)
Theorem exhausted_step_is_insertion_point data target self r self' :
  execute data target true self = (Return r, self') ->
  found r = false -> 0 < len data ->
  exists pre last p,
    steps r = pre ++ [last] /\
    step_meta "finalLeft" last = Some (oint p) /\
    step_meta "finalRight" last = Some (oint (p - 1)) /\
    step_meta "totalComparisons" last = Some (oint (comparisons r)) /\
    0 <= p <= len data /\
    (forall i, 0 <= i < p -> py_lt (item data i) target = Return true) /\
    (forall i, p <= i < len data -> py_lt target (item data i) = Return true).
Proof.
  intros H Hf Hn. pose proof (execute_returns_valid _ _ _ _ _ _ H) as Hv.
  apply validate_input_ok in Hv as (Ht & Hall & Hs).
  apply execute_returned in H as (e & k & evs & Hrun & Hfound & _ & -> & ->).
  rewrite Hfound in Hf. unfold trace_steps.
  replace (len data =? 0) with false by (symmetry; apply Z.eqb_neq; lia).
  destruct e as [c|fl fr].
  - destruct (run_returned _ _ _ _ _ _ _ _ Hrun c eq_refl) as (i & -> & _).
    discriminate.
  - destruct (run_insertion_point _ _ _ _ _ _ _ _ Hs Hrun ltac:(lia) ltac:(lia)
                ltac:(lia) fl fr eq_refl) as (-> & Hfl & Hlo & Hhi).
    change (init_step data target :: evs ++ [exhausted_step fl (fl - 1) target k])
      with ((init_step data target :: evs) ++ [exhausted_step fl (fl - 1) target k]).
    rewrite stamp_from_app. cbn [stamp_from].
    eexists _, _, fl. split; [reflexivity|].
    rewrite !step_meta_stamp.
    split; [reflexivity|]. split; [reflexivity|]. split; [reflexivity|].
    split; [lia|]. split.
    + intros i Hi. apply cmp_at_lt; [assumption|assumption|lia|apply Hlo; lia].
    + intros i Hi. apply cmp_at_gt; [assumption|assumption|lia|apply Hhi; lia].
Qed.

Lemma exhausted_step_is_insertion_point_witness :
  exists r pre last p,
    binary_search_with_steps (map VInt [1; 3; 5; 7; 9]) (VInt 4) = Return r /\
    steps r = pre ++ [last] /\
    step_meta "finalLeft" last = Some (oint p) /\
    step_meta "finalRight" last = Some (oint (p - 1)) /\
    step_meta "totalComparisons" last = Some (oint (comparisons r)) /\
    0 <= p <= len (map VInt [1; 3; 5; 7; 9]) /\
    (forall i, 0 <= i < p ->
               py_lt (item (map VInt [1; 3; 5; 7; 9]) i) (VInt 4) = Return true) /\
    (forall i, p <= i < len (map VInt [1; 3; 5; 7; 9]) ->
               py_lt (VInt 4) (item (map VInt [1; 3; 5; 7; 9]) i) = Return true).
Proof.
  destruct (exhausted_step_is_insertion_point (map VInt [1; 3; 5; 7; 9]) (VInt 4)
              __init__ _ _ ltac:(vm_compute; reflexivity)
              ltac:(reflexivity) ltac:(reflexivity))
    as (pre & last & p & H).
  eexists _, pre, last, p. split; [vm_compute; reflexivity|exact H].
Defined.

(** ** The trace *)

Lemma length_stamp_from k l : List.length (stamp_from k l) = List.length l.
Proof.
  revert k. induction l as [|s l IH]; intros k; simpl; [reflexivity|].
  now rewrite IH.
Qed.

Lemma run_steps_length data target left right n e k evs :
  run data target left right n e k evs ->
  Z.of_nat (List.length evs) = 4 * k.
Proof.
  induction 1 as [left right n Hlt | left right n Hle C
                 | left right n e k evs Hle C Hrun IH
                 | left right n e k evs Hle C Hrun IH].
  - reflexivity.
  - reflexivity.
  - rewrite length_app, Nat2Z.inj_add, IH. cbn [body_steps List.length]. lia.
  - rewrite length_app, Nat2Z.inj_add, IH. cbn [body_steps List.length]. lia.
Qed.

Lemma compare_counts_app a b :
  compare_counts (a ++ b) = compare_counts a ++ compare_counts b.
Proof. unfold compare_counts. now rewrite filter_app, map_app. Qed.

Lemma compare_counts_stamp_from k l :
  compare_counts (stamp_from k l) = compare_counts l.
Proof.
  revert k. induction l as [|s l IH]; intros k; [reflexivity|].
  unfold compare_counts in *. simpl. rewrite step_type_stamp.
  destruct (String.eqb (step_type s) "compare"); simpl; rewrite IH; [|reflexivity].
  now rewrite step_meta_stamp.
Qed.

Lemma compare_counts_body data target left right count :
  compare_counts (body_steps data target left right count) = [Some (oint count)].
Proof.
  unfold body_steps.
  destruct (cmp_at data target (midpoint left right)); reflexivity.
Qed.

Lemma run_compare_counts data target left right n e k evs :
  run data target left right n e k evs ->
  compare_counts evs = map (fun j => Some (oint j)) (range (n + 1) (n + k + 1)).
Proof.
  induction 1 as [left right n Hlt | left right n Hle C
                 | left right n e k evs Hle C Hrun IH
                 | left right n e k evs Hle C Hrun IH].
  - now rewrite range_nil by lia.
  - rewrite compare_counts_body, range_cons, range_nil by lia. reflexivity.
  - pose proof (run_count _ _ _ _ _ _ _ _ Hrun) as [[Hk _] _].
    rewrite compare_counts_app, compare_counts_body, IH.
    rewrite (range_cons (n + 1)) by lia. simpl.
    now replace (n + 1 + k + 1) with (n + (k + 1) + 1) by lia.
  - pose proof (run_count _ _ _ _ _ _ _ _ Hrun) as [[Hk _] _].
    rewrite compare_counts_app, compare_counts_body, IH.
    rewrite (range_cons (n + 1)) by lia. simpl.
    now replace (n + 1 + k + 1) with (n + (k + 1) + 1) by lia.
Qed.

(** X10. A tracked call records one [init] step, four steps per
    comparison (range, pointers, compare, and found or eliminate) and, when
    the search fails, one closing step: [4c + 1] steps when found and
    [4c + 2] when not, for [c] comparisons (2 steps on the empty list).
    The [compare] steps carry the comparison counts 1, 2, ..., [c]. *)
Theorem trace_length_and_numbering data target self r self' :
  execute data target true self = (Return r, self') ->
  Z.of_nat (List.length (steps r)) =
    (if len data =? 0 then 2
     else 4 * comparisons r + (if found r then 1 else 2)) /\
  compare_counts (steps r) =
    map (fun j => Some (oint j)) (range 1 (comparisons r + 1)).
Proof.
  intros H.
  apply execute_returned in H as (e & k & evs & Hrun & -> & _ & -> & ->).
  rewrite length_stamp_from, compare_counts_stamp_from. unfold trace_steps.
  destruct (len data =? 0) eqn:El.
  - apply Z.eqb_eq in El. rewrite El in Hrun.
    inversion Hrun; subst; try lia. split; reflexivity.
  - pose proof (run_steps_length _ _ _ _ _ _ _ _ Hrun) as Hlen.
    pose proof (run_compare_counts _ _ _ _ _ _ _ _ Hrun) as Hcc.
    change (init_step data target :: ?l) with ([init_step data target] ++ l).
    rewrite !compare_counts_app, Hcc, !length_app, !Nat2Z.inj_add, Hlen.
    replace (0 + k + 1) with (k + 1) by lia.
    change (compare_counts [init_step data target]) with (@nil (option pyobj)).
    destruct e as [c|fl fr].
    + destruct (run_returned _ _ _ _ _ _ _ _ Hrun c eq_refl) as (i & -> & _).
      cbn [exit_found core_found List.length]. split; [lia|].
      change (compare_counts []) with (@nil (option pyobj)).
      now rewrite app_nil_r.
    + cbn [exit_found List.length]. split; [lia|].
      change (compare_counts [exhausted_step fl fr target k])
        with (@nil (option pyobj)).
      now rewrite app_nil_r.
Qed.

Lemma trace_length_and_numbering_witness :
  exists r,
    binary_search_with_steps (map VInt [1; 3; 5; 7; 9]) (VInt 9) = Return r /\
    Z.of_nat (List.length (steps r)) =
      (if len (map VInt [1; 3; 5; 7; 9]) =? 0 then 2
       else 4 * comparisons r + (if found r then 1 else 2)) /\
    compare_counts (steps r) =
      map (fun j => Some (oint j)) (range 1 (comparisons r + 1)).
Proof.
  eexists. split; [vm_compute; reflexivity|].
  refine (trace_length_and_numbering (map VInt [1; 3; 5; 7; 9]) (VInt 9) __init__ _ _ _).
  vm_compute. reflexivity.
Defined.

Lemma range_indices_within n start end_ :
  0 <= start -> end_ < n ->
  Forall (fun i => 0 <= i < n) (_generate_range_indices start end_).
Proof.
  intros H0 H1. apply Forall_forall. intros i Hi.
  unfold _generate_range_indices in Hi. apply in_range in Hi. lia.
Qed.

Lemma body_steps_indices data target left right count :
  0 <= left -> left <= right -> right < len data ->
  Forall (indices_within (len data)) (body_steps data target left right count).
Proof.
  intros H0 Hle Hr. pose proof (midpoint_bounds left right Hle) as Hm.
  unfold body_steps.
  repeat constructor.
  - exists (_generate_range_indices left right).
    split; [reflexivity|]. apply range_indices_within; lia.
  - exists [left; midpoint left right; right].
    split; [reflexivity|]. repeat constructor; lia.
  - exists [midpoint left right].
    split; [now destruct (cmp_at data target (midpoint left right))|].
    repeat constructor; lia.
  - destruct (cmp_at data target (midpoint left right)).
    + exists [midpoint left right]. split; [reflexivity|]. repeat constructor; lia.
    + exists (_generate_range_indices left (midpoint left right)).
      split; [reflexivity|]. apply range_indices_within; lia.
    + exists (_generate_range_indices (midpoint left right) right).
      split; [reflexivity|]. apply range_indices_within; lia.
Qed.

Lemma run_indices data target left right n e k evs :
  run data target left right n e k evs ->
  0 <= left -> right < len data ->
  Forall (indices_within (len data)) evs.
Proof.
  induction 1 as [left right n Hlt | left right n Hle C
                 | left right n e k evs Hle C Hrun IH
                 | left right n e k evs Hle C Hrun IH]; intros H0 Hr.
  - constructor.
  - now apply body_steps_indices.
  - pose proof (midpoint_bounds left right Hle) as Hm.
    apply Forall_app. split; [now apply body_steps_indices|]. apply IH; lia.
  - pose proof (midpoint_bounds left right Hle) as Hm.
    apply Forall_app. split; [now apply body_steps_indices|]. apply IH; lia.
Qed.

(** X11. Every index listed in the [indices] of a step of a tracked call
    is a position of the searched list, between 0 and [len(data) - 1]. *)
Theorem trace_indices_are_positions data target self r self' :
  execute data target true self = (Return r, self') ->
  Forall (indices_within (len data)) (steps r).
Proof.
  intros H.
  apply execute_returned in H as (e & k & evs & Hrun & _ & _ & _ & ->).
  apply (Forall_stamp_from (indices_within (len data))).
  - intros i s (l & Hl & Hall). exists l. split; [|exact Hall].
    unfold stamp. now rewrite dict_get_set_other by discriminate.
  - unfold trace_steps.
    assert (Hnil : forall s, dict_get "indices" s = Some (OList []) ->
                             indices_within (len data) s).
    { intros s Hs. exists []. split; [exact Hs|constructor]. }
    constructor; [now apply Hnil|].
    destruct (len data =? 0); [repeat constructor; now apply Hnil|].
    apply Forall_app. split.
    + apply (run_indices _ _ _ _ _ _ _ _ Hrun); lia.
    + destruct e; repeat constructor. now apply Hnil.
Qed.

Lemma trace_indices_are_positions_witness :
  exists r,
    binary_search_with_steps (map VInt [1; 3; 5; 7; 9]) (VInt 4) = Return r /\
    Forall (indices_within (len (map VInt [1; 3; 5; 7; 9]))) (steps r).
Proof.
  eexists. split; [vm_compute; reflexivity|].
  refine (trace_indices_are_positions (map VInt [1; 3; 5; 7; 9]) (VInt 4) __init__ _ _ _).
  vm_compute. reflexivity.
Defined.

(** ** The step recorder and the helpers *)

Lemma keys_dict_set k v d :
  keys (dict_set k v d) =
  match dict_get k d with
  | Some _ => keys d
  | None => keys d ++ [k]
  end.
Proof.
  unfold keys. induction d as [|[k' v'] d IH]; simpl; [reflexivity|].
  destruct (String.eqb k k') eqn:E; simpl; [reflexivity|].
  rewrite IH. now destruct (dict_get k d).
Qed.

(** X12. [_add_step] appends exactly one step after those already
    recorded and leaves the comparison counter alone. The appended step
    holds the 1-based position under [operationCount] and, under every
    other key, what the given step holds; its keys are those of the given
    step, with [operationCount] added at the end unless the step already
    had it (then the old value is replaced in place). *)
Theorem add_step_appends_stamped step self :
  exists stamped,
    _add_step step self =
      (Return tt, mkSelf (self_steps self ++ [stamped]) (self_comparisons self)) /\
    dict_get "operationCount" stamped =
      Some (oint (Z.of_nat (List.length (self_steps self)) + 1)) /\
    (forall k, k <> "operationCount" -> dict_get k stamped = dict_get k step) /\
    keys stamped =
      match dict_get "operationCount" step with
      | Some _ => keys step
      | None => keys step ++ ["operationCount"]
      end.
Proof.
  destruct self as [l n].
  exists (dict_set "operationCount" (oint (Z.of_nat (List.length l) + 1)) step).
  split; [reflexivity|]. split; [apply dict_get_set_same|]. split.
  - intros k Hk. now apply dict_get_set_other.
  - apply keys_dict_set.
Qed.

(** X13. [_generate_range_indices(start, end)] lists the positions from
    [start] to [end] inclusive, [end - start + 1] of them, and the
    positions eliminated by a pass together with those that remain make up
    the range that was searched: the lists for [left .. m - 1] and
    [m .. right] concatenate to the list for [left .. right]. *)
Theorem range_indices_partition left m right :
  left <= m <= right + 1 ->
  _generate_range_indices left (m - 1) ++ _generate_range_indices m right =
    _generate_range_indices left right /\
  Z.of_nat (List.length (_generate_range_indices left right)) = right - left + 1 /\
  (forall i, In i (_generate_range_indices left right) <-> left <= i <= right).
Proof.
  intros H. unfold _generate_range_indices. split; [|split].
  - replace (m - 1 + 1) with m by lia. symmetry. apply range_app. lia.
  - rewrite length_range. lia.
  - intros i. rewrite in_range. lia.
Qed.

Lemma range_indices_partition_witness :
  _generate_range_indices 2 (5 - 1) ++ _generate_range_indices 5 7 =
    _generate_range_indices 2 7 /\
  Z.of_nat (List.length (_generate_range_indices 2 7)) = 7 - 2 + 1 /\
  (forall i, In i (_generate_range_indices 2 7) <-> 2 <= i <= 7).
Proof.
  apply (range_indices_partition 2 5 7). lia.
Defined.

(** X14. For finite numbers, [_get_comparison_result] answers "equal",
    "less" or "greater" exactly as the target is equal to, less than or
    greater than the other value, and [_get_comparison_symbol] gives the
    matching symbol "==", "<" or ">". *)
Theorem comparison_result_meaning target mid :
  finite_number target = true -> finite_number mid = true ->
  (_get_comparison_result target mid = Return "equal" /\
   _get_comparison_symbol target mid = Return "==" /\
   (qval target == qval mid)%Q) \/
  (_get_comparison_result target mid = Return "less" /\
   _get_comparison_symbol target mid = Return "<" /\
   (qval target < qval mid)%Q) \/
  (_get_comparison_result target mid = Return "greater" /\
   _get_comparison_symbol target mid = Return ">" /\
   (qval mid < qval target)%Q).
Proof.
  intros Ht Hm.
  rewrite comparison_result_finite, comparison_symbol_finite by assumption.
  destruct (qval mid ?= qval target)%Q eqn:C.
  - left. repeat split. symmetry. now apply Qeq_alt.
  - right. right. repeat split. now apply Qlt_alt.
  - right. left. repeat split. now apply Qgt_alt.
Qed.

Lemma comparison_result_meaning_witness :
  (_get_comparison_result (VInt 2) (VFloat (FFinite (5 # 2))) = Return "equal" /\
   _get_comparison_symbol (VInt 2) (VFloat (FFinite (5 # 2))) = Return "==" /\
   (qval (VInt 2) == qval (VFloat (FFinite (5 # 2))))%Q) \/
  (_get_comparison_result (VInt 2) (VFloat (FFinite (5 # 2))) = Return "less" /\
   _get_comparison_symbol (VInt 2) (VFloat (FFinite (5 # 2))) = Return "<" /\
   (qval (VInt 2) < qval (VFloat (FFinite (5 # 2))))%Q) \/
  (_get_comparison_result (VInt 2) (VFloat (FFinite (5 # 2))) = Return "greater" /\
   _get_comparison_symbol (VInt 2) (VFloat (FFinite (5 # 2))) = Return ">" /\
   (qval (VFloat (FFinite (5 # 2))) < qval (VInt 2))%Q).
Proof.
  apply (comparison_result_meaning (VInt 2) (VFloat (FFinite (5 # 2)))); reflexivity.
Defined.

(** X15. After a call of [execute] the object holds what the call
    produced: when it returns, [self.steps] and [self.comparisons] are the
    steps and the comparison count of the result; when it raises, they are
    the empty list and 0, whatever the object held before the call. *)
Theorem object_holds_last_result data target track self :
  match execute data target track self with
  | (Return r, self') =>
      self_steps self' = steps r /\ self_comparisons self' = comparisons r
  | (Raise _, self') => self' = mkSelf [] 0
  | (OutOfFuel, _) => False
  end.
Proof.
  destruct (execute_total data target track self)
    as [(r & s & H)|(e & Hv & H)]; rewrite H; [|reflexivity].
  pose proof (execute_returns_valid _ _ _ _ _ _ H) as Hv.
  destruct (execute_eq data target Hv) as (e & k & evs & _ & Heq).
  rewrite Heq in H. injection H as <- <-. split; reflexivity.
Qed.

(** ** One pass *)

(** X16. On validated input, a pass of the loop that does not return
    leaves a range that lies inside the range it was given and has at most
    half as many elements. *)
Theorem pass_halves_the_range data target track left right self left' right' self' :
  _validate_input data target = Return tt ->
  0 <= left -> left <= right -> right < len data ->
  loop_body data target track left right self
    = (Return (Continue left' right'), self') ->
  left <= left' /\ right' <= right /\ left' <= right' + 1 /\
  right' - left' + 1 <= (right - left + 1) / 2.
Proof.
  intros Hv H0 Hle Hr Hbody.
  apply validate_input_ok in Hv as (Ht & Hall & _).
  rewrite loop_body_eq in Hbody by assumption.
  pose proof (midpoint_bounds left right Hle) as Hm.
  pose proof (midpoint_halves left right Hle) as [Hh1 Hh2].
  injection Hbody as Hc _. unfold next_ctl in Hc.
  destruct (cmp_at data target (midpoint left right));
    [discriminate|injection Hc as <- <-|injection Hc as <- <-]; lia.
Qed.

Lemma pass_halves_the_range_witness :
  0 <= 3 /\ 4 <= 4 /\ 3 <= 4 + 1 /\ 4 - 3 + 1 <= (4 - 0 + 1) / 2.
Proof.
  apply (pass_halves_the_range (map VInt [1; 3; 5; 7; 9]) (VInt 9) false 0 4
           (mkSelf [] 0) 3 4 (mkSelf [] 1)).
  - vm_compute. reflexivity.
  - lia.
  - lia.
  - reflexivity.
  - vm_compute. reflexivity.
Defined.

(** X17. On validated input, a pass of the loop that does not return
    discards only positions whose element differs from the target: no
    position of the given range outside the range that remains holds a
    value equal to the target. *)
Theorem pass_eliminates_only_misses data target track left right self left' right' self' :
  _validate_input data target = Return tt ->
  0 <= left -> left <= right -> right < len data ->
  loop_body data target track left right self
    = (Return (Continue left' right'), self') ->
  forall i, left <= i <= right -> ~ (left' <= i <= right') ->
            py_eq (item data i) target = false.
Proof.
  intros Hv H0 Hle Hr Hbody i Hi Hout.
  apply validate_input_ok in Hv as (Ht & Hall & Hs).
  rewrite loop_body_eq in Hbody by assumption.
  pose proof (midpoint_bounds left right Hle) as Hm.
  injection Hbody as Hc _. unfold next_ctl in Hc.
  assert (Hne : cmp_at data target i <> Eq).
  { destruct (cmp_at data target (midpoint left right)) eqn:C;
      [discriminate|injection Hc as <- <-|injection Hc as <- <-];
      unfold cmp_at in *.
    - apply (proj2 (Qlt_alt _ _)) in C.
      assert (Hlt : (qval (item data i) < qval target)%Q).
      { eapply Qle_lt_trans; [|exact C]. apply non_decreasing_le; auto; lia. }
      apply (proj1 (Qlt_alt _ _)) in Hlt. congruence.
    - apply (proj2 (Qgt_alt _ _)) in C.
      assert (Hlt : (qval target < qval (item data i))%Q).
      { eapply Qlt_le_trans; [exact C|]. apply non_decreasing_le; auto; lia. }
      apply (proj1 (Qgt_alt _ _)) in Hlt. congruence. }
  destruct (py_eq (item data i) target) eqn:E; [|reflexivity].
  exfalso. apply Hne. apply cmp_at_eq; auto. lia.
Qed.

Lemma pass_eliminates_only_misses_witness :
  py_eq (item (map VInt [1; 3; 5; 7; 9]) 2) (VInt 9) = false.
Proof.
  apply (pass_eliminates_only_misses (map VInt [1; 3; 5; 7; 9]) (VInt 9) false 0 4
           (mkSelf [] 0) 3 4 (mkSelf [] 1)).
  - vm_compute. reflexivity.
  - lia.
  - lia.
  - reflexivity.
  - vm_compute. reflexivity.
  - lia.
  - lia.
Defined.

(** ** The cost of a failed search *)

Lemma log2_half_lower w :
  1 <= w -> Z.log2 (w + 1) <= Z.log2 ((w - 1) / 2 + 1) + 1.
Proof.
  intros Hw.
  assert (H0 : 0 <= (w - 1) / 2) by (apply Z.div_pos; lia).
  transitivity (Z.log2 (2 * ((w - 1) / 2 + 1) + 1)).
  - apply Z.log2_le_mono. Z.to_euclidean_division_equations. lia.
  - rewrite Z.log2_succ_double by lia. lia.
Qed.

Lemma run_exhausted_lower data target left right n e k evs :
  run data target left right n e k evs ->
  left <= right + 1 ->
  forall final_left final_right, e = Exhausted final_left final_right ->
  Z.log2 (right - left + 2) <= k.
Proof.
  induction 1 as [left right n Hlt | left right n Hle C
                 | left right n e k evs Hle C Hrun IH
                 | left right n e k evs Hle C Hrun IH]; intros Hw fl fr He.
  - replace (right - left + 2) with 1 by lia. reflexivity.
  - discriminate.
  - pose proof (midpoint_bounds left right Hle) as Hm.
    specialize (IH ltac:(lia) fl fr He).
    pose proof (log2_half_lower (right - left + 1) ltac:(lia)) as Hl.
    assert (Z.log2 ((right - left + 1 - 1) / 2 + 1)
            <= Z.log2 (right - (midpoint left right + 1) + 2)).
    { apply Z.log2_le_mono. unfold midpoint.
      Z.to_euclidean_division_equations. lia. }
    replace (right - left + 2) with (right - left + 1 + 1) by lia. lia.
  - pose proof (midpoint_bounds left right Hle) as Hm.
    specialize (IH ltac:(lia) fl fr He).
    pose proof (log2_half_lower (right - left + 1) ltac:(lia)) as Hl.
    assert (Z.log2 ((right - left + 1 - 1) / 2 + 1)
            <= Z.log2 (midpoint left right - 1 - left + 2)).
    { apply Z.log2_le_mono. unfold midpoint.
      Z.to_euclidean_division_equations. lia. }
    replace (right - left + 2) with (right - left + 1 + 1) by lia. lia.
Qed.

(** X18. A search that fails on a list of length [n] takes at least
    [floor(log2(n + 1))] and at most [ceil(log2(n + 1))] comparisons
    ([Z.log2] and [Z.log2_up]), two numbers that differ by at most one. *)
Theorem failed_search_cost data target track self r self' :
  execute data target track self = (Return r, self') ->
  found r = false ->
  Z.log2 (len data + 1) <= comparisons r <= Z.log2_up (len data + 1) /\
  Z.log2_up (len data + 1) <= Z.log2 (len data + 1) + 1.
Proof.
  intros H Hf.
  apply execute_returned in H as (e & k & evs & Hrun & Hfound & _ & -> & _).
  rewrite Hfound in Hf.
  pose proof (len_nonneg data) as Hn.
  pose proof (run_count _ _ _ _ _ _ _ _ Hrun) as [[_ Hup] _].
  replace (len data - 1 - 0 + 2) with (len data + 1) in Hup by lia.
  split; [split; [|exact Hup]|].
  - destruct e as [c|fl fr].
    + destruct (run_returned _ _ _ _ _ _ _ _ Hrun c eq_refl) as (i & -> & _).
      discriminate.
    + pose proof (run_exhausted_lower _ _ _ _ _ _ _ _ Hrun ltac:(lia) fl fr eq_refl)
        as Hlow.
      now replace (len data - 1 - 0 + 2) with (len data + 1) in Hlow by lia.
  - pose proof (Z.le_log2_up_succ_log2 (len data + 1)). lia.
Qed.

Lemma failed_search_cost_witness :
  exists r,
    binary_search_with_steps (map VInt [1; 3; 5; 7; 9]) (VInt 0) = Return r /\
    Z.log2 (len (map VInt [1; 3; 5; 7; 9]) + 1) <= comparisons r
      <= Z.log2_up (len (map VInt [1; 3; 5; 7; 9]) + 1) /\
    Z.log2_up (len (map VInt [1; 3; 5; 7; 9]) + 1)
      <= Z.log2 (len (map VInt [1; 3; 5; 7; 9]) + 1) + 1.
Proof.
  eexists. split; [vm_compute; reflexivity|].
  refine (failed_search_cost (map VInt [1; 3; 5; 7; 9]) (VInt 0) true __init__ _ _ _ _).
  - vm_compute. reflexivity.
  - reflexivity.
Defined.

(** ** The exceptions that can be raised *)

Lemma for_in_raise_inv {A} (xs : list A) (body : A -> outcome unit) e :
  for_in xs body = Raise e -> exists x, In x xs /\ body x = Raise e.
Proof.
  induction xs as [|x xs IH]; simpl; [discriminate|].
  destruct (body x) as [[]|e'|] eqn:E; simpl; intros H.
  - destruct (IH H) as (y & Hy & Hb). exists y. auto.
  - injection H as <-. exists x. auto.
  - discriminate.
Qed.

Lemma not_finite_number_raise v e :
  not_finite_number v = Raise e ->
  e = OverflowError /\ exists z, v = VInt z /\ DBL_INT_LIMIT <= Z.abs z.
Proof.
  unfold not_finite_number, isinstance_number.
  destruct v as [z|b|[q| |n]|s|]; simpl; try discriminate.
  destruct (Z.abs z <? DBL_INT_LIMIT) eqn:E; simpl; [discriminate|].
  intros H. injection H as <-. apply Z.ltb_ge in E. eauto.
Qed.

Lemma py_lt_raise a b e :
  py_lt a b = Raise e ->
  e = TypeError /\ (isinstance_number a = false \/ isinstance_number b = false).
Proof.
  unfold py_lt, isinstance_number.
  destruct a as [z|c|f|s|], b as [z'|c'|f'|s'|]; simpl; try discriminate;
    intros H; injection H as <-; auto.
Qed.

Lemma validate_input_raise data target e :
  _validate_input data target = Raise e ->
  (exists msg, e = ValueError msg) \/
  (e = OverflowError /\
   exists z, DBL_INT_LIMIT <= Z.abs z /\ (target = VInt z \/ In (VInt z) data)) \/
  (e = TypeError /\ exists v, In v data /\ isinstance_number v = false).
Proof.
  rewrite validate_input_eq. unfold target_check.
  destruct (not_finite_number target) as [[]|x|] eqn:Et; cbn [obind].
  - intros H. injection H as <-. left. eauto.
  - destruct (for_in (range 1 (len data)) (sorted_check data)) as [[]|x|] eqn:Es;
      cbn [obind].
    + intros H. apply for_in_raise_inv in H as ([i v] & Hin & Hb).
      apply in_enumerate in Hin as (Hi & <-).
      unfold element_check in Hb.
      destruct (not_finite_number (item data i)) as [[]|y|] eqn:En;
        cbn [obind] in Hb; try discriminate.
      * rewrite (fmt_not_finite _ En) in Hb. cbn [obind] in Hb.
        injection Hb as <-. left. eauto.
      * injection Hb as <-.
        apply not_finite_number_raise in En as (-> & z & Hz & Hbig).
        right. left. split; [reflexivity|]. exists z. split; [exact Hbig|].
        right. rewrite <- Hz. now apply item_In.
    + intros H. injection H as <-.
      apply for_in_raise_inv in Es as (i & Hin & Hb). apply in_range in Hin.
      unfold sorted_check in Hb. rewrite !getitem_in_range in Hb by lia.
      cbn [obind] in Hb.
      destruct (py_lt (item data i) (item data (i - 1))) as [[]|y|] eqn:El;
        cbn [obind] in Hb; try discriminate.
      * left.
        destruct (fmt_cases (item data i)) as [Ex|Ex]; rewrite Ex in Hb;
          cbn [obind] in Hb;
          [destruct (fmt_cases (item data (i - 1))) as [Ey|Ey]; rewrite Ey in Hb;
           cbn [obind] in Hb|];
          injection Hb as <-; unfold digits_error; eauto.
      * injection Hb as <-. apply py_lt_raise in El as (-> & Hc).
        right. right. split; [reflexivity|].
        destruct Hc as [Hc|Hc]; eexists; (split; [|exact Hc]); apply item_In; lia.
    + discriminate.
  - intros H. injection H as <-.
    apply not_finite_number_raise in Et as (-> & z & Hz & Hbig).
    right. left. split; [reflexivity|]. exists z. auto.
  - discriminate.
Qed.

(** X19. [execute] never raises IndexError. It raises TypeError only when
    the list holds a value that is not an int, a bool or a float, and
    OverflowError only when the target or an element is an int beyond the
    range of a double; so on a list of numbers in that range, with such a
    target or a target that is not an int, every failure is a
    ValueError. *)
Theorem exceptions_of_execute data target track self e :
  fst (execute data target track self) = Raise e ->
  e <> IndexError /\
  (e = TypeError -> exists v, In v data /\ isinstance_number v = false) /\
  (e = OverflowError ->
   exists z, DBL_INT_LIMIT <= Z.abs z /\ (target = VInt z \/ In (VInt z) data)) /\
  (Forall (fun v => convertible_number v = true) data ->
   (forall z, target = VInt z -> Z.abs z < DBL_INT_LIMIT) ->
   exists msg, e = ValueError msg).
Proof.
  intros H.
  assert (Hv : _validate_input data target = Raise e).
  { destruct (execute_total data target track self)
      as [(r & s & Hr)|(x & Hx & Hr)]; rewrite Hr in H; simpl in H;
      [discriminate|congruence]. }
  apply validate_input_raise in Hv.
  destruct Hv as [(msg & ->)|[(-> & Hc)|(-> & Hc)]].
  - repeat (split; [discriminate|]). eauto.
  - split; [discriminate|]. split; [discriminate|]. split; [auto|].
    intros Hall Ht. exfalso. rewrite Forall_forall in Hall.
    destruct Hc as (z & Hbig & [Hz|Hz]).
    + specialize (Ht z Hz). lia.
    + specialize (Hall _ Hz). simpl in Hall. apply Z.ltb_lt in Hall. lia.
  - split; [discriminate|]. split; [auto|]. split; [discriminate|].
    intros Hall _. exfalso. rewrite Forall_forall in Hall.
    destruct Hc as (v & Hin & Hc). specialize (Hall v Hin).
    destruct v; simpl in Hc, Hall; discriminate.
Qed.

Lemma exceptions_of_execute_witness :
  exists e,
    fst (execute [VInt 2; VFloat (FInf false); VInt 1] (VFloat (FFinite (1 # 2)))
           true __init__) = Raise e /\
    e <> IndexError /\
    exists msg, e = ValueError msg.
Proof.
  eexists. split; [vm_compute; reflexivity|].
  destruct (exceptions_of_execute
              [VInt 2; VFloat (FInf false); VInt 1] (VFloat (FFinite (1 # 2)))
              true __init__ _ ltac:(vm_compute; reflexivity)) as (H1 & _ & _ & H3).
  split; [exact H1|]. apply H3.
  - repeat constructor.
  - discriminate.
Defined.

(** ** The search on numbers that pass the validator *)

(** X21. On a non-decreasing list of numbers that pass the validator's
    test ([finite_number]: a bool, a finite float, or an int of magnitude
    below 2^1024 - 2^970) and such a target, [binary_search] returns an
    index holding a value equal to the target when the target occurs in
    the list, and -1 when it does not. *)
Theorem binary_search_correct data target :
  all_finite data -> non_decreasing data -> finite_number target = true ->
  ((exists v, In v data /\ py_eq v target = true) ->
   exists i v,
     binary_search data target = Return i /\
     0 <= i /\ getitem data i = Return v /\ py_eq v target = true) /\
  ((forall v, In v data -> py_eq v target = false) ->
   binary_search data target = Return (-1)).
Proof.
  intros Hall Hs Ht.
  assert (Hv : _validate_input data target = Return tt)
    by (apply validate_input_ok; auto).
  destruct (execute_eq data target Hv) as (e & k & evs & Hrun & Heq).
  unfold binary_search. rewrite Heq. cbn [fst obind index exit_index].
  destruct e as [r|fl fr].
  - destruct (run_returned _ _ _ _ _ _ _ _ Hrun r eq_refl) as (i & -> & Hb & Hc).
    apply cmp_at_eq in Hc; auto; try lia. split.
    + intros _. exists i, (item data i). cbn [core_index].
      rewrite getitem_in_range by lia. repeat split; auto; lia.
    + intros Habs. rewrite Habs in Hc by (apply item_In; lia). discriminate.
  - split; [|reflexivity].
    intros (v & Hin & Hv'). exfalso.
    apply In_item in Hin as (i & Hi & <-).
    apply (run_exhausted_absent _ _ _ _ _ _ _ _ Hs Hrun ltac:(lia) ltac:(lia)
             fl fr eq_refl i ltac:(lia)).
    now apply cmp_at_eq.
Qed.

Lemma binary_search_correct_witness :
  exists i v,
    binary_search (map VInt [1; 3; 5; 7; 9]) (VInt 5) = Return i /\
    0 <= i /\ getitem (map VInt [1; 3; 5; 7; 9]) i = Return v /\
    py_eq v (VInt 5) = true.
Proof.
  apply (binary_search_correct (map VInt [1; 3; 5; 7; 9]) (VInt 5)).
  - repeat constructor.
  - intros i x y Hx Hy.
    do 5 (destruct i as [|i];
          [inversion Hx; inversion Hy; subst; vm_compute; discriminate|]).
    destruct i; discriminate.
  - reflexivity.
  - exists (VInt 5). split; [simpl; tauto|reflexivity].
Defined.

(** X22. For every target that passes the validator's test
    ([finite_number]), [execute] on the empty list returns found=False,
    index=-1 and zero comparisons without entering the search core; with
    tracking, the trace is the [init] step followed by one [eliminate]
    step whose metadata reason is "empty-array" (and which is not the
    [searchExhausted] step of the core). *)
Theorem empty_list_short_circuits target track self :
  finite_number target = true ->
  exists l,
    execute [] target track self = (Return (mkResult false (-1) l 0), mkSelf l 0) /\
    (track = false -> l = []) /\
    (track = true ->
     exists s,
       l = [dict_set "operationCount" (oint 1) (init_step [] target); s] /\
       s = dict_set "operationCount" (oint 2) empty_step /\
       is_empty_array_step s /\
       step_meta "searchExhausted" s = None).
Proof.
  intros Ht.
  assert (Hv : _validate_input [] target = Return tt).
  { apply validate_input_ok. repeat split; auto.
    - constructor.
    - intros [|i] x y Hx; discriminate. }
  destruct self as [l0 n0]. unfold execute.
  destruct track; run_method; rewrite Hv; run_method; cbn [len List.length Z.of_nat Z.eqb].
  - eexists. split; [reflexivity|]. split; [discriminate|]. intros _.
    eexists. repeat split.
  - exists []. split; [reflexivity|]. split; [reflexivity|discriminate].
Qed.

Lemma empty_list_short_circuits_witness :
  exists l,
    execute [] (VInt 5) true __init__ = (Return (mkResult false (-1) l 0), mkSelf l 0) /\
    (true = false -> l = []) /\
    (true = true ->
     exists s,
       l = [dict_set "operationCount" (oint 1) (init_step [] (VInt 5)); s] /\
       s = dict_set "operationCount" (oint 2) empty_step /\
       is_empty_array_step s /\
       step_meta "searchExhausted" s = None).
Proof.
  apply (empty_list_short_circuits (VInt 5) true __init__). reflexivity.
Defined.

(** ** Serialization *)

Lemma map_ODict_inj (l1 l2 : list dict) : map ODict l1 = map ODict l2 -> l1 = l2.
Proof.
  revert l2. induction l1 as [|d l1 IH]; intros [|d' l2] H; try discriminate.
  - reflexivity.
  - simpl in H. injection H as -> H. f_equal. now apply IH.
Qed.

(** X20. [to_dict] loses nothing: two results with the same dict have the
    same found flag, index, steps and comparison count. *)
Theorem to_dict_is_injective r1 r2 : to_dict r1 = to_dict r2 -> r1 = r2.
Proof.
  destruct r1 as [f1 i1 s1 c1], r2 as [f2 i2 s2 c2]. unfold to_dict. simpl.
  intros H. injection H as Hf Hi Hs Hc.
  apply map_ODict_inj in Hs. congruence.
Qed.

Lemma to_dict_is_injective_witness :
  mkResult true 2 [empty_step] 1 = mkResult true (1 + 1) [empty_step] 1.
Proof.
  apply (to_dict_is_injective (mkResult true 2 [empty_step] 1)
           (mkResult true (1 + 1) [empty_step] 1)).
  reflexivity.
Defined.
